(** * create_icons.py: the placeholder icon generator of the Rubi extension

    A shallow embedding of [src/create_icons.py] and the properties of its
    observable behaviour.

    The script is a straight-line Python module: an import guard, four
    configuration constants, [os.makedirs], a [for] loop over the sizes and
    two closing [print]s.  It is embedded as a computation in a state and
    exception monad.  The state holds

    - the module namespace (the script's variables are module globals, the
      loop variables included),
    - the heap of Pillow image objects ([draw] aliases [img]),
    - the file system below the working directory,
    - the log of the calls that leave the interpreter (every [print] and
      every call of [os] and of Pillow), in order.

    What the script cannot decide itself (is Pillow installed, does the font
    file load, what are the glyph's metrics, does the disk accept a write,
    does standard output accept a line) is a [Platform]: a record of oracles
    every theorem quantifies over. *)

From Stdlib Require Import ZArith Lia Ascii.
From Stdlib Require Import Floats.SpecFloat.
From stdpp Require Import base option list gmap strings pretty.

Local Open Scope Z_scope.

(** ** Exceptions and results *)

(** The exception classes the script can meet.  [SystemExit] carries the
    status passed to [exit]. *)
Inductive exn : Type :=
  | SystemExit (code : Z)
  | ImportError
  | ModuleNotFoundError
  | NameError
  | TypeError
  | IndexError
  | ValueError
  | OverflowError
  | MemoryError
  | OSError
  | FileExistsError
  | FileNotFoundError
  | NotADirectoryError
  | IsADirectoryError
  | PermissionError.

(** [except ImportError]: the class and its subclass. *)
Definition isinstance_ImportError (e : exn) : bool :=
  match e with
  | ImportError | ModuleNotFoundError => true
  | _ => false
  end.

(** [except OSError]: the class and its subclasses. *)
Definition isinstance_OSError (e : exn) : bool :=
  match e with
  | OSError | FileExistsError | FileNotFoundError | NotADirectoryError
  | IsADirectoryError | PermissionError => true
  | _ => false
  end.

Definition isinstance_FileExistsError (e : exn) : bool :=
  match e with
  | FileExistsError => true
  | _ => false
  end.

Inductive result (A : Type) : Type :=
  | Ok (a : A)
  | Raise (e : exn).
Arguments Ok {A} a.
Arguments Raise {A} e.

(** ** Python values and Pillow objects *)

Definition Color : Type := Z * Z * Z.
Definition BBox : Type := Z * Z * Z * Z.

(** A font object: the FreeType font [ImageFont.truetype] builds from a file
    at a requested size, or the font compiled into Pillow, which
    [ImageFont.load_default()] returns and which takes no size. *)
Inductive Font : Type :=
  | FreeTypeFont (path : string) (size : Z)
  | DefaultFont.

(** An image object's contents: mode, size and the pixel rows. *)
Record Image : Type := mkImage {
  im_mode : string;
  im_size : Z * Z;
  im_rows : list (list Color)
}.

Definition pixel (im : Image) (x y : nat) : option Color :=
  row ← im_rows im !! y; row !! x.

(** What [Image.new(mode, (w, h), color)] allocates. *)
Definition blank_image (mode : string) (w h : Z) (c : Color) : Image :=
  mkImage mode (w, h) (replicate (Z.to_nat h) (replicate (Z.to_nat w) c)).

(** The values the script's variables hold.  Image and draw objects are
    references into the heap: a [VDraw] holds the image it draws on. *)
Inductive pyval : Type :=
  | VInt (n : Z)
  | VStr (s : string)
  | VList (l : list Z)
  | VTuple (l : list Z)
  | VFont (f : Font)
  | VImage (obj : nat)
  | VDraw (obj : nat).

(** ** The file system *)

(** The working directory and what is below it: a map from relative paths
    to entries.  Files elsewhere (the font file the script names by an
    absolute path) are not in it; what the script gets from them is the
    platform's. *)
Inductive node : Type :=
  | Dir
  | File (data : list Byte.byte).

Definition is_dir (n : option node) : bool :=
  match n with
  | Some Dir => true
  | _ => false
  end.

Definition present (n : option node) : bool :=
  match n with
  | Some _ => true
  | None => false
  end.

(** ** The log of external calls *)

(** [EvPrint line] is a [print] that standard output took, [EvPrintRefused
    line] one that raised because it did not. *)
Inductive event : Type :=
  | EvPrint (line : string)
  | EvPrintRefused (line : string)
  | EvMakedirs (name : string) (exist_ok : bool)
  | EvImageNew (mode : string) (size : Z * Z) (color : Color)
  | EvImageDraw (obj : nat)
  | EvTruetype (font : string) (size : Z)
  | EvLoadDefault
  | EvTextbbox (xy : Z * Z) (text : string) (font : Font)
  | EvDrawText (obj : nat) (canvas : Image) (xy : Z * Z) (text : string)
               (fill : Color) (font : Font)
  | EvSave (obj : nat) (path : string) (format : string).

(** ** The platform *)

(** What a failed [img.save] leaves at the target path. *)
Inductive debris : Type :=
  | Untouched
  | Partial (data : list Byte.byte)
  | Removed.

Record Platform : Type := mkPlatform {
  (** [from PIL import Image, ImageDraw, ImageFont]: [None] when it succeeds. *)
  import_error : option exn;
  (** [ImageFont.truetype(path, size)]: [None] when the font loads. *)
  truetype_error : string → Z → option exn;
  (** What [draw.textbbox(xy, text, font=font)] measures. *)
  measure : Z * Z → string → Font → result BBox;
  (** What [draw.text(xy, text, fill=fill, font=font)] makes of a canvas. *)
  render : Image → Z * Z → string → Color → Font → result Image;
  (** The PNG encoder. *)
  png_encode : Image → list Byte.byte;
  (** The operating system refusing [mkdir] on a path that could be created
      (permissions, read-only medium). *)
  mkdir_error : string → option exn;
  (** The operating system failing a write to a path that could be written
      (permissions, full disk), and what it leaves there. *)
  write_error : string → option (exn * debris);
  (** [print(line)] raising because standard output refuses the write (a
      full device, when output is not buffered): [None] when the line is
      taken. *)
  print_error : string → option exn;
  (** The interpreter's flush of standard output at exit failing, given the
      text that was printed (a full device or a closed pipe behind a
      buffer). *)
  flush_error : string → bool
}.

(** ** The interpreter state and its monad *)

Record State : Type := mkState {
  globals : gmap string pyval;
  heap : list Image;
  fs : gmap string node;
  log : list event
}.

Definition set_globals (g : gmap string pyval) (st : State) : State :=
  mkState g (heap st) (fs st) (log st).
Definition set_heap (h : list Image) (st : State) : State :=
  mkState (globals st) h (fs st) (log st).
Definition set_fs (f : gmap string node) (st : State) : State :=
  mkState (globals st) (heap st) f (log st).
Definition emit (ev : event) (st : State) : State :=
  mkState (globals st) (heap st) (fs st) (log st ++ [ev]).

(** A process starts with an empty namespace, no image and nothing logged. *)
Definition initial (disk : gmap string node) : State :=
  mkState ∅ [] disk [].

Definition M (A : Type) : Type := State → result A * State.

Definition ret {A} (a : A) : M A := λ st, (Ok a, st).
Definition raise {A} (e : exn) : M A := λ st, (Raise e, st).
Definition bind {A B} (m : M A) (k : A → M B) : M B :=
  λ st, match m st with
        | (Ok a, st') => k a st'
        | (Raise e, st') => (Raise e, st')
        end.

Notation "x <- m ;; k" := (bind m (λ x, k))
  (at level 100, m at next level, right associativity).
Notation "m ;; k" := (bind m (λ _, k))
  (at level 100, right associativity).

(** [try: body  except C: handler] where [caught] tells the instances of [C];
    the handler runs in the state the body left. *)
Definition try_except {A} (body : M A) (caught : exn → bool)
    (handler : exn → M A) : M A :=
  λ st, match body st with
        | (Ok a, st') => (Ok a, st')
        | (Raise e, st') => if caught e then handler e st' else (Raise e, st')
        end.

(** A bare [except:] catches every exception. *)
Definition anything (_ : exn) : bool := true.

Definition tell (ev : event) : M unit := λ st, (Ok tt, emit ev st).

(** *** Variables *)

Definition load (x : string) : M pyval :=
  λ st, match globals st !! x with
        | Some v => (Ok v, st)
        | None => (Raise NameError, st)
        end.

Definition store (x : string) (v : pyval) : M unit :=
  λ st, (Ok tt, set_globals (<[x := v]> (globals st)) st).

Definition as_int (v : pyval) : M Z :=
  match v with VInt n => ret n | _ => raise TypeError end.
Definition as_str (v : pyval) : M string :=
  match v with VStr s => ret s | _ => raise TypeError end.
Definition as_font (v : pyval) : M Font :=
  match v with VFont f => ret f | _ => raise TypeError end.
Definition as_image (v : pyval) : M nat :=
  match v with VImage r => ret r | _ => raise TypeError end.
Definition as_draw (v : pyval) : M nat :=
  match v with VDraw r => ret r | _ => raise TypeError end.
Definition as_iterable (v : pyval) : M (list Z) :=
  match v with VList l | VTuple l => ret l | _ => raise TypeError end.
Definition as_color (v : pyval) : M Color :=
  match v with
  | VTuple [r; g; b] | VList [r; g; b] => ret (r, g, b)
  | VTuple _ | VList _ => raise ValueError
  | _ => raise TypeError
  end.
Definition as_point (v : pyval) : M (Z * Z) :=
  match v with
  | VTuple [x; y] | VList [x; y] => ret (x, y)
  | VTuple _ | VList _ => raise ValueError
  | _ => raise TypeError
  end.

(** [v[i]] for a literal index [i]. *)
Definition subscript (v : pyval) (i : nat) : M Z :=
  match v with
  | VTuple l | VList l =>
      match l !! i with
      | Some n => ret n
      | None => raise IndexError
      end
  | _ => raise TypeError
  end.

(** *** Builtins *)

(** [print(line)]: the line goes to standard output, or the write is
    refused and its exception raised, with nothing shown. *)
Definition print (P : Platform) (line : string) : M unit :=
  match print_error P line with
  | None => tell (EvPrint line)
  | Some e => tell (EvPrintRefused line) ;; raise e
  end.

(** [exit(code)] raises [SystemExit]. *)
Definition exit {A} (code : Z) : M A := raise (SystemExit code).

(** [str(n)], as an f-string formats an [int]. *)
Definition str (n : Z) : string := pretty n.

Definition lift {A} (r : result A) : M A := λ st, (r, st).

(** *** Floating point: [int(size * 0.6)] *)

(** Python's [float] is IEEE 754 binary64. *)
Definition prec : Z := 53.
Definition emax : Z := 1024.

(** [float(n)]: the nearest double, [OverflowError] beyond the largest. *)
Definition float_of_int (n : Z) : result spec_float :=
  match binary_normalize prec emax n 0 false with
  | S754_infinity _ => Raise OverflowError
  | x => Ok x
  end.

(** The literal [0.6]: the double nearest to 6/10, 5404319552844595 / 2^53. *)
Definition float_0_6 : spec_float := S754_finite false 5404319552844595 (-53).

(** [n * x] for an [int] [n] and a [float] [x]. *)
Definition int_mul_float (n : Z) (x : spec_float) : result spec_float :=
  match float_of_int n with
  | Ok y => Ok (SFmul prec emax y x)
  | Raise e => Raise e
  end.

(** [int(x)]: truncation towards zero. *)
Definition int_of_float (x : spec_float) : result Z :=
  match x with
  | S754_zero _ => Ok 0
  | S754_finite s m e =>
      let a := match e with
               | Z0 => Zpos m
               | Zpos p => Zpos m * 2 ^ Zpos p
               | Zneg p => Zpos m `div` 2 ^ Zpos p
               end in
      Ok (if s then - a else a)
  | S754_infinity _ => Raise OverflowError
  | S754_nan => Raise ValueError
  end.

(** [int(size * 0.6)]. *)
Definition scaled_font_size (size : Z) : result Z :=
  match int_mul_float size float_0_6 with
  | Ok x => int_of_float x
  | Raise e => Raise e
  end.

(** ** [os]: paths, [mkdir], [makedirs] *)

(** The proper ancestors of a relative path, nearest first:
    ["a/b/c"] has ["a/b"] and ["a"]. *)
Fixpoint ancestors_from (pre s : string) : list string :=
  match s with
  | EmptyString => []
  | String c s' =>
      let above := ancestors_from (pre +:+ String c EmptyString) s' in
      if bool_decide (c = "/"%char) && negb (bool_decide (pre = ""))
      then above ++ [pre] else above
  end.

Definition ancestors (name : string) : list string := ancestors_from "" name.

(** The directory an entry lives in; [None] for the working directory. *)
Definition parent (name : string) : option string := head (ancestors name).

(** Why an entry cannot be created at [name]: its directory is missing or
    is a file. *)
Definition parent_error (disk : gmap string node) (name : string)
  : option exn :=
  match parent name with
  | None => None
  | Some d =>
      match disk !! d with
      | Some Dir => None
      | Some (File _) => Some NotADirectoryError
      | None => Some FileNotFoundError
      end
  end.

Definition check_parent (name : string) : M unit :=
  λ st, match parent_error (fs st) name with
        | None => (Ok tt, st)
        | Some e => (Raise e, st)
        end.

(** The disk after a failed write left [d] at [path]. *)
Definition litter (d : debris) (path : string) (disk : gmap string node)
  : gmap string node :=
  match d with
  | Untouched => disk
  | Partial data => <[path := File data]> disk
  | Removed => delete path disk
  end.

Definition path_exists (name : string) : M bool :=
  λ st, (Ok (present (fs st !! name)), st).

Definition path_isdir (name : string) : M bool :=
  λ st, (Ok (is_dir (fs st !! name)), st).

Section Script.
Context (P : Platform).

(** [os.mkdir(name)]. *)
Definition os_mkdir (name : string) : M unit :=
  present <- path_exists name ;;
  if (present : bool) then raise FileExistsError else
  check_parent name ;;
  match mkdir_error P name with
  | Some e => raise e
  | None => λ st, (Ok tt, set_fs (<[name := Dir]> (fs st)) st)
  end.

(** [os.makedirs]: make the missing ancestors first, then the leaf;
    with [exist_ok], a leaf that is already a directory is no error.
    [above] lists the ancestors of [name], nearest first. *)
Fixpoint makedirs (name : string) (above : list string) (exist_ok : bool)
  : M unit :=
  match above with
  | [] => ret tt
  | head :: above' =>
      present <- path_exists head ;;
      if (present : bool) then ret tt else
      try_except (makedirs head above' exist_ok)
        isinstance_FileExistsError (λ _, ret tt)
  end ;;
  try_except (os_mkdir name) isinstance_OSError
    (λ e, isdir <- path_isdir name ;;
          if negb exist_ok || negb isdir then raise e else ret tt).

Definition os_makedirs (name : string) (exist_ok : bool) : M unit :=
  tell (EvMakedirs name exist_ok) ;;
  makedirs name (ancestors name) exist_ok.

(** ** Pillow *)

(** [Image.new(mode, size, color)]: a new object, every pixel [color]. *)
Definition Image_new (mode : string) (size : Z * Z) (color : Color)
  : M nat :=
  tell (EvImageNew mode size color) ;;
  if (size.1 <? 0) || (size.2 <? 0) then raise ValueError else
  λ st, (Ok (length (heap st)),
         set_heap (heap st ++ [blank_image mode size.1 size.2 color]) st).

Definition deref (obj : nat) : M Image :=
  λ st, match heap st !! obj with
        | Some im => (Ok im, st)
        | None => (Raise ValueError, st)
        end.

(** [ImageDraw.Draw(im)]: the draw object keeps a reference to [im]. *)
Definition ImageDraw_Draw (im : nat) : M nat :=
  tell (EvImageDraw im) ;;
  _ <- deref im ;; ret im.

Definition ImageFont_truetype (font : string) (size : Z) : M Font :=
  tell (EvTruetype font size) ;;
  match truetype_error P font size with
  | Some e => raise e
  | None => ret (FreeTypeFont font size)
  end.

(** [ImageFont.load_default()] takes no argument from the script and
    reads nothing of the platform. *)
Definition ImageFont_load_default : M Font :=
  tell EvLoadDefault ;; ret DefaultFont.

Definition draw_textbbox (draw : nat) (xy : Z * Z) (text : string)
    (font : Font) : M BBox :=
  _ <- deref draw ;;
  tell (EvTextbbox xy text font) ;;
  lift (measure P xy text font).

(** [draw.text] changes the image the draw object refers to, in place. *)
Definition draw_text (draw : nat) (xy : Z * Z) (text : string)
    (fill : Color) (font : Font) : M unit :=
  canvas <- deref draw ;;
  tell (EvDrawText draw canvas xy text fill font) ;;
  drawn <- lift (render P canvas xy text fill font) ;;
  λ st, (Ok tt, set_heap (<[draw := drawn]> (heap st)) st).

Definition leave (d : debris) (path : string) : M unit :=
  λ st, (Ok tt, set_fs (litter d path (fs st)) st).

(** [im.save(path, format)]: open [path] for writing, which creates the
    file or truncates the one that is there, and write the encoding. *)
Definition Image_save (im : nat) (path format : string) : M unit :=
  tell (EvSave im path format) ;;
  image <- deref im ;;
  if negb (bool_decide (format = "PNG")) then raise ValueError else
  isdir <- path_isdir path ;;
  if (isdir : bool) then raise IsADirectoryError else
  check_parent path ;;
  match write_error P path with
  | Some (e, d) => leave d path ;; raise e
  | None =>
      λ st, (Ok tt,
             set_fs (<[path := File (png_encode P image)]> (fs st)) st)
  end.

(** ** The script *)

Definition SIZES : list Z := [16; 48; 128].
Definition OUTPUT_DIR : string := "assets/icons".
Definition BG_COLOR : Color := (102, 126, 234).
Definition TEXT_COLOR : Color := (255, 255, 255).

Definition tuple3 (c : Color) : pyval :=
  let '(r, g, b) := c in VTuple [r; g; b].
Definition tuple4 (b : BBox) : pyval :=
  let '(x0, y0, x1, y1) := b in VTuple [x0; y0; x1; y1].

(** A replacement field of an f-string.  The script formats a [str] and
    an [int] only. *)
Definition format_value (v : pyval) : M string :=
  match v with
  | VStr s => ret s
  | VInt n => ret (str n)
  | _ => raise TypeError
  end.

Definition newline : string := String "010"%char EmptyString.

(** Lines 7-11: the import guard. *)
Definition imports : M unit :=
  try_except
    (match import_error P with
     | Some e => raise e
     | None => ret tt
     end)
    isinstance_ImportError
    (λ _, print P "Pillow not installed. Run: pip install Pillow" ;;
          exit 1).

(** Lines 16-21: the configuration constants. *)
Definition configure : M unit :=
  store "SIZES" (VList SIZES) ;;
  store "OUTPUT_DIR" (VStr OUTPUT_DIR) ;;
  store "BG_COLOR" (tuple3 BG_COLOR) ;;
  store "TEXT_COLOR" (tuple3 TEXT_COLOR).

(** Line 24: [os.makedirs(OUTPUT_DIR, exist_ok=True)]. *)
Definition ensure_output_dir : M unit :=
  dir <- bind (load "OUTPUT_DIR") as_str ;;
  os_makedirs dir true.

(** Lines 32-38: the font, with its fallback. *)
Definition choose_font : M unit :=
  try_except
    ((* font_size = int(size * 0.6) *)
     size <- bind (load "size") as_int ;;
     font_size <- lift (scaled_font_size size) ;;
     store "font_size" (VInt font_size) ;;
     (* font = ImageFont.truetype(".../Helvetica.ttc", font_size) *)
     font_size <- bind (load "font_size") as_int ;;
     font <- ImageFont_truetype "/System/Library/Fonts/Helvetica.ttc"
               font_size ;;
     store "font" (VFont font))
    anything
    (λ _, (* font = ImageFont.load_default() *)
          font <- ImageFont_load_default ;;
          store "font" (VFont font)).

(** Lines 27-29: the canvas and its draw object. *)
Definition new_canvas : M unit :=
  (* img = Image.new('RGB', (size, size), BG_COLOR) *)
  width <- bind (load "size") as_int ;;
  height <- bind (load "size") as_int ;;
  color <- bind (load "BG_COLOR") as_color ;;
  im <- Image_new "RGB" (width, height) color ;;
  store "img" (VImage im) ;;
  (* draw = ImageDraw.Draw(img) *)
  im <- bind (load "img") as_image ;;
  d <- ImageDraw_Draw im ;;
  store "draw" (VDraw d).

(** Lines 40-46: the glyph and its bounding box. *)
Definition measure_text : M unit :=
  (* text = "R" *)
  store "text" (VStr "R") ;;
  (* bbox = draw.textbbox((0, 0), text, font=font) *)
  d <- bind (load "draw") as_draw ;;
  text <- bind (load "text") as_str ;;
  font <- bind (load "font") as_font ;;
  box <- draw_textbbox d (0, 0) text font ;;
  store "bbox" (tuple4 box) ;;
  (* text_width = bbox[2] - bbox[0] *)
  bbox <- load "bbox" ;;
  b2 <- subscript bbox 2 ;;
  bbox <- load "bbox" ;;
  b0 <- subscript bbox 0 ;;
  store "text_width" (VInt (b2 - b0)) ;;
  (* text_height = bbox[3] - bbox[1] *)
  bbox <- load "bbox" ;;
  b3 <- subscript bbox 3 ;;
  bbox <- load "bbox" ;;
  b1 <- subscript bbox 1 ;;
  store "text_height" (VInt (b3 - b1)).

(** Lines 48-49: the centred position and the drawing.  Python's [//] on
    integers is floor division, as [`div`] on [Z] with a positive
    divisor. *)
Definition draw_glyph : M unit :=
  (* position = ((size - text_width) // 2,
                 (size - text_height) // 2 - bbox[1]) *)
  size <- bind (load "size") as_int ;;
  text_width <- bind (load "text_width") as_int ;;
  size' <- bind (load "size") as_int ;;
  text_height <- bind (load "text_height") as_int ;;
  bbox <- load "bbox" ;;
  b1 <- subscript bbox 1 ;;
  store "position"
    (VTuple [(size - text_width) `div` 2;
             (size' - text_height) `div` 2 - b1]) ;;
  (* draw.text(position, text, fill=TEXT_COLOR, font=font) *)
  d <- bind (load "draw") as_draw ;;
  position <- bind (load "position") as_point ;;
  text <- bind (load "text") as_str ;;
  fill <- bind (load "TEXT_COLOR") as_color ;;
  font <- bind (load "font") as_font ;;
  draw_text d position text fill font.

(** Lines 51-54: the file and its confirmation. *)
Definition save_icon : M unit :=
  (* output_path = f"{OUTPUT_DIR}/icon{size}.png" *)
  dir <- bind (load "OUTPUT_DIR") format_value ;;
  n <- bind (load "size") format_value ;;
  store "output_path" (VStr (dir +:+ "/icon" +:+ n +:+ ".png")) ;;
  (* img.save(output_path, "PNG") *)
  im <- bind (load "img") as_image ;;
  output_path <- bind (load "output_path") as_str ;;
  Image_save im output_path "PNG" ;;
  (* print(f"Created {output_path}") *)
  output_path <- bind (load "output_path") format_value ;;
  print P ("Created " +:+ output_path).

(** Lines 27-54: the body of the loop. *)
Definition render_icon : M unit :=
  new_canvas ;;
  choose_font ;;
  measure_text ;;
  draw_glyph ;;
  save_icon.

(** Lines 27-46: the body up to the measurement of the glyph. *)
Definition until_measured : M unit :=
  new_canvas ;;
  choose_font ;;
  measure_text.

(** [for x in xs: body]: [x] is bound to each element in turn. *)
Fixpoint for_in (x : string) (xs : list Z) (body : M unit) : M unit :=
  match xs with
  | [] => ret tt
  | v :: vs => store x (VInt v) ;; body ;; for_in x vs body
  end.

(** Lines 26-54. *)
Definition render_all : M unit :=
  sizes <- bind (load "SIZES") as_iterable ;;
  for_in "size" sizes render_icon.

(** Lines 56-57. *)
Definition report : M unit :=
  print P (newline +:+ "Icons created successfully!") ;;
  print P "You can now load the extension in Chrome.".

(** The module, top to bottom. *)
Definition main : M unit :=
  imports ;;
  configure ;;
  ensure_output_dir ;;
  render_all ;;
  report.
End Script.

(** ** What the process shows *)

(** The text the [print]s of a log gave to standard output; [print] ends
    each line with a newline, and a refused [print] shows nothing. *)
Definition stdout_of (l : list event) : string :=
  foldr (λ ev out,
           match ev with
           | EvPrint line => line +:+ newline +:+ out
           | _ => out
           end) "" l.

Definition stdout (st : State) : string := stdout_of (log st).

(** How the process ends: the module ran to its end, [exit] was called, or
    an exception reached the top and the interpreter printed a traceback. *)
Inductive termination : Type :=
  | Finished
  | Exited (code : Z)
  | Traceback (e : exn).

Definition termination_of (r : result unit) : termination :=
  match r with
  | Ok _ => Finished
  | Raise (SystemExit code) => Exited code
  | Raise e => Traceback e
  end.

Definition run (P : Platform) (disk : gmap string node)
  : termination * State :=
  let '(r, st) := main P (initial disk) in (termination_of r, st).

(** The interpreter flushes standard output when it exits, however the
    module ended; there is something to flush only if something was
    printed. *)
Definition flush_failed (P : Platform) (st : State) : bool :=
  negb (bool_decide (stdout st = "")) && flush_error P (stdout st).


(** ** The script read without its variables

    Every variable of the loop body is assigned before it is read, so one
    iteration is a function of the size alone.  [icon] is that function, in
    the same monad and over the same operations; [render_icon_icon] below
    proves that the body does what [icon] does. *)

Definition helvetica : string := "/System/Library/Fonts/Helvetica.ttc".

(** [f"{OUTPUT_DIR}/icon{size}.png"]. *)
Definition output_path (size : Z) : string :=
  OUTPUT_DIR +:+ "/icon" +:+ str size +:+ ".png".

(** The position the glyph is drawn at, from the size and the box. *)
Definition centered (size : Z) (box : BBox) : Z * Z :=
  let '(x0, y0, x1, y1) := box in
  ((size - (x1 - x0)) `div` 2, (size - (y1 - y0)) `div` 2 - y0).

(** The font an iteration ends up with. *)
Definition picked_font (P : Platform) (size : Z) : Font :=
  match scaled_font_size size with
  | Ok n =>
      match truetype_error P helvetica n with
      | None => FreeTypeFont helvetica n
      | Some _ => DefaultFont
      end
  | Raise _ => DefaultFont
  end.

(** The calls an iteration makes to get its font. *)
Definition font_events (P : Platform) (size : Z) : list event :=
  match scaled_font_size size with
  | Ok n =>
      match truetype_error P helvetica n with
      | None => [EvTruetype helvetica n]
      | Some _ => [EvTruetype helvetica n; EvLoadDefault]
      end
  | Raise _ => [EvLoadDefault]
  end.

Section Reading.
Context (P : Platform).

Definition pick_font (size : Z) : M Font :=
  try_except
    (n <- lift (scaled_font_size size) ;; ImageFont_truetype P helvetica n)
    anything
    (λ _, ImageFont_load_default).

Definition icon (size : Z) : M unit :=
  im <- Image_new "RGB" (size, size) BG_COLOR ;;
  d <- ImageDraw_Draw im ;;
  font <- pick_font size ;;
  box <- draw_textbbox P d (0, 0) "R" font ;;
  draw_text P d (centered size box) "R" TEXT_COLOR font ;;
  Image_save P im (output_path size) "PNG" ;;
  print P ("Created " +:+ output_path size).

Fixpoint icons (sizes : list Z) : M unit :=
  match sizes with
  | [] => ret tt
  | size :: rest => icon size ;; icons rest
  end.

Definition program : M unit :=
  imports P ;;
  os_makedirs P OUTPUT_DIR true ;;
  icons SIZES ;;
  report P.

(** The part of the module before the loop. *)
Definition startup : M unit :=
  imports P ;;
  configure ;;
  ensure_output_dir P.
End Reading.

(** The picture an iteration saves: the glyph measured and drawn on the
    blank canvas. *)
Definition artwork (P : Platform) (size : Z) : result Image :=
  let font := picked_font P size in
  match measure P (0, 0) "R" font with
  | Ok box =>
      render P (blank_image "RGB" size size BG_COLOR) (centered size box)
        "R" TEXT_COLOR font
  | Raise e => Raise e
  end.

(** ** The log of a run *)

(** What [print(line)] logs. *)
Definition printed (P : Platform) (line : string) : event :=
  match print_error P line with
  | None => EvPrint line
  | Some _ => EvPrintRefused line
  end.

(** Everything an iteration logs when it goes as far as the platform lets
    it; an iteration that fails logs a prefix of it ([icons_log_prefix]
    below). *)
Definition icon_log (P : Platform) (size : Z) (obj : nat) : list event :=
  let font := picked_font P size in
  let canvas := blank_image "RGB" size size BG_COLOR in
  [EvImageNew "RGB" (size, size) BG_COLOR; EvImageDraw obj] ++
  font_events P size ++
  [EvTextbbox (0, 0) "R" font] ++
  match measure P (0, 0) "R" font with
  | Ok box =>
      [EvDrawText obj canvas (centered size box) "R" TEXT_COLOR font;
       EvSave obj (output_path size) "PNG";
       printed P ("Created " +:+ output_path size)]
  | Raise _ => []
  end.

(** The iterations over [sizes], the first drawing on object [obj]. *)
Fixpoint icons_log (P : Platform) (sizes : list Z) (obj : nat)
  : list event :=
  match sizes with
  | [] => []
  | size :: rest => icon_log P size obj ++ icons_log P rest (S obj)
  end.

Definition report_log (P : Platform) : list event :=
  [printed P (newline +:+ "Icons created successfully!");
   printed P "You can now load the extension in Chrome."].

(** How the two closing [print]s end, and what they log: the second is
    not reached when the first is refused. *)
Definition report_result (P : Platform) : result unit :=
  match print_error P (newline +:+ "Icons created successfully!") with
  | Some e => Raise e
  | None =>
      match print_error P "You can now load the extension in Chrome." with
      | Some e => Raise e
      | None => Ok tt
      end
  end.

Definition report_said (P : Platform) : list event :=
  match print_error P (newline +:+ "Icons created successfully!") with
  | Some _ => [EvPrintRefused (newline +:+ "Icons created successfully!")]
  | None =>
      [EvPrint (newline +:+ "Icons created successfully!");
       printed P "You can now load the extension in Chrome."]
  end.

Definition full_log (P : Platform) : list event :=
  [EvMakedirs OUTPUT_DIR true] ++ icons_log P SIZES 0 ++ report_log P.

(** ** When nothing but the font can fail *)

(** The glyph can be measured and drawn, the system refuses no directory
    and no write, standard output refuses no line, and nothing of the wrong
    kind is in the way on the disk: no file where a directory is needed, no
    directory where an icon goes. *)
Definition cooperative (P : Platform) (disk : gmap string node) : Prop :=
  import_error P = None ∧
  (∀ xy text font, ∃ box, measure P xy text font = Ok box) ∧
  (∀ canvas xy text fill font,
     ∃ drawn, render P canvas xy text fill font = Ok drawn) ∧
  (∀ path, mkdir_error P path = None) ∧
  (∀ path, write_error P path = None) ∧
  (∀ line, print_error P line = None) ∧
  (∀ data, disk !! "assets" ≠ Some (File data)) ∧
  (∀ data, disk !! OUTPUT_DIR ≠ Some (File data)) ∧
  (∀ size, size ∈ SIZES → disk !! output_path size ≠ Some Dir).

(** A disk the icons can be written to: the output directory is there and
    no directory sits at an icon's path. *)
Definition ready (disk : gmap string node) : Prop :=
  disk !! OUTPUT_DIR = Some Dir ∧
  ∀ size, size ∈ SIZES → is_dir (disk !! output_path size) = false.

(** What a computation does apart from the namespace. *)
Definition effects {A} (x : result A * State)
  : result A * list Image * gmap string node * list event :=
  (x.1, heap x.2, fs x.2, log x.2).

(** The namespace once the constants are assigned. *)
Definition configured (st : State) : Prop :=
  globals st !! "SIZES" = Some (VList SIZES) ∧
  globals st !! "OUTPUT_DIR" = Some (VStr OUTPUT_DIR) ∧
  globals st !! "BG_COLOR" = Some (tuple3 BG_COLOR) ∧
  globals st !! "TEXT_COLOR" = Some (tuple3 TEXT_COLOR).

(** The names of the configuration constants and of the variables the loop
    assigns. *)
Definition CONSTANTS : list string :=
  ["SIZES"; "OUTPUT_DIR"; "BG_COLOR"; "TEXT_COLOR"].
Definition LOOP_VARIABLES : list string :=
  ["size"; "img"; "draw"; "font_size"; "font"; "text"; "bbox"; "text_width";
   "text_height"; "position"; "output_path"].

(** A computation that leaves the variable [x] as it is. *)
Definition preserves {A} (x : string) (m : M A) : Prop :=
  ∀ st, globals (m st).2 !! x = globals st !! x.

(** A computation that neither reads nor writes the namespace. *)
Definition blind {A} (m : M A) : Prop :=
  ∀ st g, m (set_globals g st) = ((m st).1, set_globals g (m st).2).


Definition is_image_new (ev : event) : bool :=
  match ev with
  | EvImageNew _ _ _ => true
  | _ => false
  end.

Definition is_print (ev : event) : bool :=
  match ev with
  | EvPrint _ => true
  | _ => false
  end.

(** The lines of a text that ends each line with a newline. *)
Fixpoint lines_from (cur : string) (s : string) : list string :=
  match s with
  | EmptyString => if bool_decide (cur = "") then [] else [cur]
  | String c s' =>
      if bool_decide (c = "010"%char)
      then cur :: lines_from "" s'
      else lines_from (cur +:+ String c EmptyString) s'
  end.

Definition lines (s : string) : list string := lines_from "" s.

(** ** Platforms to run the script on *)

(** A glyph box that grows with a FreeType font's size and is fixed for the
    built-in font. *)
Definition sample_measure (xy : Z * Z) (text : string) (font : Font)
  : result BBox :=
  match font with
  | FreeTypeFont _ size =>
      Ok (xy.1, xy.2 + size `div` 4, xy.1 + (2 * size) `div` 3, xy.2 + size)
  | DefaultFont => Ok (xy.1, xy.2 + 3, xy.1 + 6, xy.2 + 11)
  end.

(** Paints the top left pixel of the glyph's position. *)
Definition sample_render (im : Image) (xy : Z * Z) (text : string)
    (fill : Color) (font : Font) : result Image :=
  Ok (mkImage (im_mode im) (im_size im)
        (alter (λ row, <[Z.to_nat xy.1 := fill]> row) (Z.to_nat xy.2)
           (im_rows im))).

Definition sample_encode (im : Image) : list Byte.byte :=
  [Byte.x89; Byte.x50; Byte.x4e; Byte.x47].

(** macOS with Pillow: Helvetica loads. *)
Definition macos : Platform :=
  mkPlatform None (λ _ _, None) sample_measure sample_render sample_encode
    (λ _, None) (λ _, None) (λ _, None) (λ _, false).

(** Linux with Pillow: there is no [/System/Library/Fonts]. *)
Definition linux : Platform :=
  mkPlatform None (λ _ _, Some OSError) sample_measure sample_render
    sample_encode (λ _, None) (λ _, None) (λ _, None) (λ _, false).

(** No Pillow. *)
Definition bare : Platform :=
  mkPlatform (Some ModuleNotFoundError) (λ _ _, Some OSError) sample_measure
    sample_render sample_encode (λ _, None) (λ _, None) (λ _, None)
    (λ _, false).

(** Pillow, and a working directory that cannot be written. *)
Definition readonly : Platform :=
  mkPlatform None (λ _ _, None) sample_measure sample_render sample_encode
    (λ _, Some PermissionError) (λ _, Some (PermissionError, Untouched))
    (λ _, None) (λ _, false).

(** Pillow, and a disk that fills up while the second icon is written. *)
Definition full_disk : Platform :=
  mkPlatform None (λ _ _, None) sample_measure sample_render sample_encode
    (λ _, None)
    (λ path, if bool_decide (path = "assets/icons/icon48.png")
             then Some (OSError, Partial [Byte.x89]) else None)
    (λ _, None) (λ _, false).


(** What a complete run prints. *)
Definition success_output : string :=
  "Created assets/icons/icon16.png" +:+ newline +:+
  "Created assets/icons/icon48.png" +:+ newline +:+
  "Created assets/icons/icon128.png" +:+ newline +:+
  newline +:+
  "Icons created successfully!" +:+ newline +:+
  "You can now load the extension in Chrome." +:+ newline.

(** The namespace after lines 16-21. *)
Definition configuration : gmap string pyval :=
  <["TEXT_COLOR" := tuple3 TEXT_COLOR]>
    (<["BG_COLOR" := tuple3 BG_COLOR]>
       (<["OUTPUT_DIR" := VStr OUTPUT_DIR]>
          (<["SIZES" := VList SIZES]> ∅))).

(** A state at the top of an iteration: the constants and [size] are
    bound, the output directory is there. *)
Definition easel (size : Z) : State :=
  mkState (<["size" := VInt size]> configuration) []
    (<[OUTPUT_DIR := Dir]> (<["assets" := Dir]> ∅))
    [EvMakedirs OUTPUT_DIR true].

(** On [full_disk]: the state after the first iteration, and the state the
    second iteration, which fails, leaves. *)
Definition after_first : State :=
  ((startup full_disk ;; for_in "size" [16] (render_icon full_disk))
     (initial ∅)).2.

Definition at_failure : State :=
  ((store "size" (VInt 48) ;; render_icon full_disk) after_first).2.

(** ** More to run the script on, and more to say about a run *)



(** Pillow, and standard output is not buffered and the device behind it
    fills up while the second icon is written: the second confirmation is
    refused. *)
Definition output_refused : Platform :=
  mkPlatform None (λ _ _, None) sample_measure sample_render sample_encode
    (λ _, None) (λ _, None)
    (λ line, if bool_decide (line = "Created assets/icons/icon48.png")
             then Some OSError else None)
    (λ _, false).



(** A directory where the second icon goes. *)
Definition directory_in_the_way : gmap string node :=
  <["assets/icons/icon48.png" := Dir]>
    (<[OUTPUT_DIR := Dir]> (<["assets" := Dir]> ∅)).


(** The entries of the disk the script names. *)
Definition FOOTPRINT : list string :=
  ["assets"; OUTPUT_DIR] ++ (output_path <$> SIZES).

(** The lines the script can print. *)
Definition HINT : string := "Pillow not installed. Run: pip install Pillow".
Definition confirmation (size : Z) : string :=
  "Created " +:+ output_path size.
Definition CLOSING : list string :=
  [newline +:+ "Icons created successfully!";
   "You can now load the extension in Chrome."].

(** With Pillow, every operation of a run succeeds: [os.makedirs]
    returns; for each size the glyph is measured and drawn, no directory is
    where the icon goes, the system takes the write and standard output the
    confirmation; and standard output takes the two closing lines. *)
Definition all_succeed (P : Platform) (disk : gmap string node) : Prop :=
  (os_makedirs P OUTPUT_DIR true (initial disk)).1 = Ok tt ∧
  (∀ size, size ∈ SIZES →
     (∃ drawn, artwork P size = Ok drawn) ∧
     disk !! output_path size ≠ Some Dir ∧
     write_error P (output_path size) = None ∧
     print_error P (confirmation size) = None) ∧
  (∀ line, line ∈ CLOSING → print_error P line = None).

(** Why a run ends with the exception [e]. *)
Inductive failure (P : Platform) (disk : gmap string node) (e : exn)
  : Prop :=
  | pillow_missing e' :
      import_error P = Some e' → isinstance_ImportError e' = true →
      print_error P HINT = None →
      e = SystemExit 1 → failure P disk e
  | hint_refused e' :
      import_error P = Some e' → isinstance_ImportError e' = true →
      print_error P HINT = Some e → failure P disk e
  | import_failed :
      import_error P = Some e → isinstance_ImportError e = false →
      failure P disk e
  | no_directory :
      (os_makedirs P OUTPUT_DIR true (initial disk)).1 = Raise e →
      e ∈ [FileExistsError; NotADirectoryError; FileNotFoundError] →
      failure P disk e
  | mkdir_refused path :
      (os_makedirs P OUTPUT_DIR true (initial disk)).1 = Raise e →
      mkdir_error P path = Some e →
      failure P disk e
  | measure_failed size :
      size ∈ SIZES →
      measure P (0, 0) "R" (picked_font P size) = Raise e →
      failure P disk e
  | render_failed size box :
      size ∈ SIZES →
      measure P (0, 0) "R" (picked_font P size) = Ok box →
      render P (blank_image "RGB" size size BG_COLOR) (centered size box)
        "R" TEXT_COLOR (picked_font P size) = Raise e →
      failure P disk e
  | path_is_directory size :
      size ∈ SIZES → disk !! output_path size = Some Dir →
      e = IsADirectoryError → failure P disk e
  | write_failed size d :
      size ∈ SIZES → write_error P (output_path size) = Some (e, d) →
      failure P disk e
  | confirmation_refused size :
      size ∈ SIZES → print_error P (confirmation size) = Some e →
      failure P disk e
  | closing_refused line :
      line ∈ CLOSING → print_error P line = Some e →
      failure P disk e.



(** * Proofs *)

(** ** Running a computation symbolically *)

Ltac crank :=
  cbv beta iota zeta delta
    [bind ret raise lift load store tell emit set_globals set_heap set_fs
     globals heap fs log as_int as_str as_font as_image as_draw as_color
     as_point as_iterable subscript tuple3 tuple4 format_value exit
     try_except anything fst snd negb BG_COLOR TEXT_COLOR helvetica
     deref].

Lemma lookup_snoc {A} (l : list A) (x : A) : (l ++ [x]) !! length l = Some x.
Proof. by rewrite list_lookup_middle. Qed.

Lemma insert_snoc {A} (l : list A) (x y : A) :
  <[length l := y]> (l ++ [x]) = l ++ [y].
Proof.
  rewrite insert_app_r_alt by lia. by rewrite Nat.sub_diag.
Qed.

Lemma item_here {A} (x : A) (l : list A) : (x :: l) !! 0%nat = Some x.
Proof. reflexivity. Qed.

Lemma item_there {A} (x : A) (l : list A) (i : nat) :
  (x :: l) !! S i = l !! i.
Proof. reflexivity. Qed.

Ltac look :=
  repeat first
    [ rewrite lookup_insert_eq
    | rewrite lookup_insert_ne by discriminate
    | rewrite insert_snoc
    | rewrite lookup_snoc
    | rewrite item_here
    | rewrite item_there ].

Ltac known :=
  repeat match goal with
         | H : ?g !! ?x = _ |- context [?g !! ?x] => rewrite H
         end.

Ltac exec := repeat (progress (crank; look; known)).

Ltac fin := repeat rewrite <- app_assoc; cbn [app]; reflexivity.

(** ** Computations that do not touch the namespace *)

Lemma set_globals_same st : set_globals (globals st) st = st.
Proof. by destruct st. Qed.

Lemma blind_globals {A} (m : M A) st : blind m → globals (m st).2 = globals st.
Proof.
  intros Hm. rewrite <- (set_globals_same st) at 1. by rewrite Hm.
Qed.

Lemma blind_effects {A} (m : M A) st st' :
  blind m → heap st = heap st' → fs st = fs st' → log st = log st' →
  effects (m st) = effects (m st').
Proof.
  intros Hm Hh Hf Hl.
  assert (st = set_globals (globals st) st') as ->.
  { destruct st, st'; simpl in *; by subst. }
  by rewrite Hm.
Qed.

Lemma blind_ret {A} (a : A) : blind (ret a).
Proof. done. Qed.

Lemma blind_raise {A} (e : exn) : blind (@raise A e).
Proof. done. Qed.

Lemma blind_lift {A} (r : result A) : blind (lift r).
Proof. done. Qed.

Lemma blind_tell ev : blind (tell ev).
Proof. done. Qed.

Lemma blind_bind {A B} (m : M A) (k : A → M B) :
  blind m → (∀ a, blind (k a)) → blind (bind m k).
Proof.
  intros Hm Hk st g. unfold bind. rewrite Hm.
  destruct (m st) as [[a|e] st1]; simpl; [apply Hk | done].
Qed.

Lemma blind_try_except {A} (m : M A) caught (handler : exn → M A) :
  blind m → (∀ e, blind (handler e)) → blind (try_except m caught handler).
Proof.
  intros Hm Hh st g. unfold try_except. rewrite Hm.
  destruct (m st) as [[a|e] st1]; simpl; [done|].
  destruct (caught e); [apply Hh | done].
Qed.

Lemma blind_if {A} (b : bool) (m1 m2 : M A) :
  blind m1 → blind m2 → blind (if b then m1 else m2).
Proof. by destruct b. Qed.

Lemma blind_path_exists name : blind (path_exists name).
Proof. done. Qed.

Lemma blind_path_isdir name : blind (path_isdir name).
Proof. done. Qed.

Lemma blind_check_parent name : blind (check_parent name).
Proof.
  intros st g. unfold check_parent. simpl.
  by destruct (parent_error (fs st) name).
Qed.

Lemma blind_deref obj : blind (deref obj).
Proof. intros st g. unfold deref. simpl. by destruct (heap st !! obj). Qed.

Lemma blind_print P line : blind (print P line).
Proof. intros st g. unfold print. by destruct (print_error P line). Qed.

Create HintDb blind discriminated.
#[local] Hint Resolve blind_ret blind_raise blind_lift blind_tell blind_bind
  blind_try_except blind_if blind_path_exists blind_path_isdir
  blind_check_parent blind_deref blind_print : blind.

Section Blind.
Context (P : Platform).

Lemma blind_os_mkdir name : blind (os_mkdir P name).
Proof.
  unfold os_mkdir. apply blind_bind; [auto with blind|]. intros [].
  { auto with blind. }
  apply blind_bind; [auto with blind|]. intros _.
  destruct (mkdir_error P name); [auto with blind | done].
Qed.

Lemma blind_makedirs name above exist_ok :
  blind (makedirs P name above exist_ok).
Proof.
  revert name. induction above as [|head above IH]; intros name; simpl.
  - apply blind_bind; [auto with blind|]. intros _.
    apply blind_try_except; [apply blind_os_mkdir|]. intros e.
    apply blind_bind; [auto with blind|]. intros b.
    destruct (_ || _); auto with blind.
  - apply blind_bind.
    + apply blind_bind; [auto with blind|]. intros [|]; [auto with blind|].
      apply blind_try_except; [apply IH | auto with blind].
    + intros _. apply blind_try_except; [apply blind_os_mkdir|]. intros e.
      apply blind_bind; [auto with blind|]. intros b.
      destruct (_ || _); auto with blind.
Qed.

Lemma blind_os_makedirs name exist_ok : blind (os_makedirs P name exist_ok).
Proof.
  unfold os_makedirs. apply blind_bind; [auto with blind|]. intros _.
  apply blind_makedirs.
Qed.

Lemma blind_Image_new mode size color : blind (Image_new mode size color).
Proof.
  unfold Image_new. apply blind_bind; [auto with blind|]. intros _.
  destruct (_ || _); [auto with blind | done].
Qed.

Lemma blind_truetype font size : blind (ImageFont_truetype P font size).
Proof.
  unfold ImageFont_truetype. apply blind_bind; [auto with blind|].
  intros _. destruct (truetype_error P font size); auto with blind.
Qed.

Lemma blind_load_default : blind ImageFont_load_default.
Proof. unfold ImageFont_load_default. auto with blind. Qed.

Lemma blind_pick_font size : blind (pick_font P size).
Proof.
  unfold pick_font. apply blind_try_except.
  - apply blind_bind; [auto with blind|]. intros n. apply blind_truetype.
  - intros _. apply blind_load_default.
Qed.

Lemma blind_draw_textbbox d xy text font :
  blind (draw_textbbox P d xy text font).
Proof. unfold draw_textbbox. auto 10 with blind. Qed.

Lemma blind_draw_text d xy text fill font :
  blind (draw_text P d xy text fill font).
Proof.
  unfold draw_text. apply blind_bind; [auto with blind|]. intros canvas.
  apply blind_bind; [auto with blind|]. intros _.
  apply blind_bind; [auto with blind|]. by intros drawn.
Qed.

Lemma blind_leave d path : blind (leave d path).
Proof. done. Qed.

Lemma blind_Image_save im path format : blind (Image_save P im path format).
Proof.
  unfold Image_save. apply blind_bind; [auto with blind|]. intros _.
  apply blind_bind; [auto with blind|]. intros image.
  destruct (negb _); [auto with blind|].
  apply blind_bind; [auto with blind|]. intros [|]; [auto with blind|].
  apply blind_bind; [auto with blind|]. intros _.
  destruct (write_error P path) as [[e d]|]; [|done].
  apply blind_bind; [apply blind_leave | auto with blind].
Qed.

Lemma blind_icon size : blind (icon P size).
Proof.
  unfold icon. apply blind_bind; [apply blind_Image_new|]. intros im.
  apply blind_bind; [unfold ImageDraw_Draw; auto with blind|]. intros d.
  apply blind_bind; [apply blind_pick_font|]. intros font.
  apply blind_bind; [apply blind_draw_textbbox|]. intros box.
  apply blind_bind; [apply blind_draw_text|]. intros _.
  apply blind_bind; [apply blind_Image_save|]. intros _.
  apply blind_print.
Qed.

Lemma blind_icons sizes : blind (icons P sizes).
Proof.
  induction sizes as [|size sizes IH]; simpl; [auto with blind|].
  apply blind_bind; [apply blind_icon | done].
Qed.
End Blind.

Section Blocks.
Context (P : Platform).

Lemma new_canvas_run g h f l S :
  g !! "size" = Some (VInt S) →
  g !! "BG_COLOR" = Some (tuple3 BG_COLOR) →
  new_canvas (mkState g h f l) =
    if S <? 0
    then (Raise ValueError,
          mkState g h f (l ++ [EvImageNew "RGB" (S, S) BG_COLOR]))
    else (Ok tt,
          mkState (<["draw" := VDraw (length h)]>
                     (<["img" := VImage (length h)]> g))
            (h ++ [blank_image "RGB" S S BG_COLOR]) f
            (l ++ [EvImageNew "RGB" (S, S) BG_COLOR;
                   EvImageDraw (length h)])).
Proof.
  intros Hs Hb. unfold new_canvas, Image_new, ImageDraw_Draw. exec.
  rewrite orb_diag. destruct (S <? 0); exec; [reflexivity|].
  by rewrite <- app_assoc.
Qed.

Lemma choose_font_run g h f l S :
  g !! "size" = Some (VInt S) →
  choose_font P (mkState g h f l) =
    (Ok tt,
     match scaled_font_size S with
     | Ok n =>
         match truetype_error P helvetica n with
         | None =>
             mkState (<["font" := VFont (FreeTypeFont helvetica n)]>
                        (<["font_size" := VInt n]> g)) h f
               (l ++ [EvTruetype helvetica n])
         | Some _ =>
             mkState (<["font" := VFont DefaultFont]>
                        (<["font_size" := VInt n]> g)) h f
               (l ++ [EvTruetype helvetica n; EvLoadDefault])
         end
     | Raise _ =>
         mkState (<["font" := VFont DefaultFont]> g) h f
           (l ++ [EvLoadDefault])
     end).
Proof.
  intros Hs. unfold choose_font, ImageFont_truetype, ImageFont_load_default.
  exec. destruct (scaled_font_size S) as [n|e]; exec; [|reflexivity].
  destruct (truetype_error P _ n); exec; [|reflexivity].
  by rewrite <- app_assoc.
Qed.

Lemma measure_text_run g h f l d canvas font :
  g !! "draw" = Some (VDraw d) →
  g !! "font" = Some (VFont font) →
  h !! d = Some canvas →
  measure_text P (mkState g h f l) =
    match measure P (0, 0) "R" font with
    | Ok (x0, y0, x1, y1) =>
        (Ok tt,
         mkState (<["text_height" := VInt (y1 - y0)]>
                    (<["text_width" := VInt (x1 - x0)]>
                       (<["bbox" := VTuple [x0; y0; x1; y1]]>
                          (<["text" := VStr "R"]> g)))) h f
           (l ++ [EvTextbbox (0, 0) "R" font]))
    | Raise e =>
        (Raise e,
         mkState (<["text" := VStr "R"]> g) h f
           (l ++ [EvTextbbox (0, 0) "R" font]))
    end.
Proof.
  intros Hd Hf Hc. unfold measure_text, draw_textbbox. exec.
  destruct (measure P _ _ font) as [[[[x0 y0] x1] y1]|e]; exec; reflexivity.
Qed.

Lemma draw_glyph_run g h f l S w ht x0 y0 x1 y1 d canvas text font :
  g !! "size" = Some (VInt S) →
  g !! "text_width" = Some (VInt w) →
  g !! "text_height" = Some (VInt ht) →
  g !! "bbox" = Some (VTuple [x0; y0; x1; y1]) →
  g !! "draw" = Some (VDraw d) →
  g !! "text" = Some (VStr text) →
  g !! "TEXT_COLOR" = Some (tuple3 TEXT_COLOR) →
  g !! "font" = Some (VFont font) →
  h !! d = Some canvas →
  draw_glyph P (mkState g h f l) =
    let xy := ((S - w) `div` 2, (S - ht) `div` 2 - y0) in
    let g' := <["position" := VTuple [xy.1; xy.2]]> g in
    let l' := l ++ [EvDrawText d canvas xy text TEXT_COLOR font] in
    match render P canvas xy text TEXT_COLOR font with
    | Ok drawn => (Ok tt, mkState g' (<[d := drawn]> h) f l')
    | Raise e => (Raise e, mkState g' h f l')
    end.
Proof.
  intros. unfold draw_glyph, draw_text. exec.
  destruct (render P _ _ _ _ _); exec; reflexivity.
Qed.

Lemma save_icon_run g h f l S im :
  g !! "OUTPUT_DIR" = Some (VStr OUTPUT_DIR) →
  g !! "size" = Some (VInt S) →
  g !! "img" = Some (VImage im) →
  effects (save_icon P (mkState g h f l)) =
    effects ((Image_save P im (output_path S) "PNG" ;;
              print P ("Created " +:+ output_path S)) (mkState g h f l)).
Proof.
  intros. unfold save_icon. exec. fold (output_path S).
  match goal with
  | |- context [Image_save P im ?p ?fm (mkState ?g' h f l)] =>
      change (mkState g' h f l) with (set_globals g' (mkState g h f l));
      rewrite (blind_Image_save P im p fm)
  end.
  destruct (Image_save _ _ _ _ _) as [[[]|e] st']; exec; [|reflexivity].
  unfold print. destruct (print_error P _); exec; reflexivity.
Qed.
End Blocks.

Section Refinement.
Context (P : Platform).

Lemma blind_save_print im path line :
  blind (Image_save P im path "PNG" ;; print P line).
Proof. apply blind_bind; [apply blind_Image_save | intros; apply blind_print]. Qed.

Lemma render_icon_icon st S :
  configured st →
  globals st !! "size" = Some (VInt S) →
  effects (render_icon P st) = effects (icon P S st).
Proof.
  intros (_ & Hd & Hb & Ht) Hs. destruct st as [g h f l].
  cbn [globals] in *. unfold render_icon, icon.
  crank. rewrite (new_canvas_run g h f l S) by done.
  unfold Image_new. crank. rewrite orb_diag.
  destruct (S <? 0); crank; [reflexivity|].
  unfold ImageDraw_Draw. exec. rewrite <- (app_assoc l [_] [_]). cbn [app].
  rewrite (choose_font_run P _ _ _ _ S) by (look; known; reflexivity).
  unfold pick_font, ImageFont_truetype, ImageFont_load_default. crank.
  assert (∀ g' l' font,
    g' !! "size" = Some (VInt S) →
    g' !! "OUTPUT_DIR" = Some (VStr OUTPUT_DIR) →
    g' !! "TEXT_COLOR" = Some (tuple3 TEXT_COLOR) →
    g' !! "draw" = Some (VDraw (length h)) →
    g' !! "img" = Some (VImage (length h)) →
    g' !! "font" = Some (VFont font) →
    let h' := h ++ [blank_image "RGB" S S BG_COLOR] in
    effects ((measure_text P ;; draw_glyph P ;; save_icon P)
               (mkState g' h' f l')) =
    effects ((box <- draw_textbbox P (length h) (0, 0) "R" font ;;
              draw_text P (length h) (centered S box) "R" TEXT_COLOR font ;;
              Image_save P (length h) (output_path S) "PNG" ;;
              print P ("Created " +:+ output_path S))
               (mkState g h' f l'))) as Hrest.
  { intros g' l' font Hs' Hd' Ht' Hdr Him Hf h'. crank.
    erewrite measure_text_run by (subst h'; look; known; reflexivity).
    unfold draw_textbbox. subst h'. exec.
    destruct (measure P _ _ _) as [[[[x0 y0] x1] y1]|e]; exec;
      [|reflexivity].
    erewrite draw_glyph_run by (look; known; reflexivity).
    unfold draw_text, centered. exec.
    destruct (render P _ _ _ _ _) as [drawn|e]; exec; [|reflexivity].
    erewrite save_icon_run by (look; known; reflexivity).
    match goal with
    | |- effects (?m ?st1) = _ =>
        exact (blind_effects m st1 (mkState g (heap st1) f (log st1))
                 (blind_save_print _ _ _) eq_refl eq_refl eq_refl)
    end. }
  destruct (scaled_font_size S) as [n|e0]; crank.
  - destruct (truetype_error P _ n) as [e1|]; crank.
    + rewrite <- (app_assoc _ [_] [EvLoadDefault]). cbn [app].
      apply Hrest; look; known; reflexivity.
    + apply Hrest; look; known; reflexivity.
  - apply Hrest; look; known; reflexivity.
Qed.
End Refinement.

#[local] Hint Resolve blind_os_makedirs blind_Image_new blind_truetype
  blind_load_default blind_pick_font blind_draw_textbbox blind_draw_text
  blind_Image_save blind_icon blind_icons : blind.

(** ** Computations that leave a variable alone *)

Lemma preserves_blind {A} (m : M A) x : blind m → preserves x m.
Proof. intros Hm st. by rewrite blind_globals. Qed.

Lemma preserves_bind {A B} (m : M A) (k : A → M B) x :
  preserves x m → (∀ a, preserves x (k a)) → preserves x (bind m k).
Proof.
  intros Hm Hk st. unfold bind. specialize (Hm st).
  destruct (m st) as [[a|e] st1]; simpl in *; [|done].
  by rewrite Hk.
Qed.

Lemma preserves_try_except {A} (m : M A) caught (handler : exn → M A) x :
  preserves x m → (∀ e, preserves x (handler e)) →
  preserves x (try_except m caught handler).
Proof.
  intros Hm Hh st. unfold try_except. specialize (Hm st).
  destruct (m st) as [[a|e] st1]; simpl in *; [done|].
  destruct (caught e); [by rewrite Hh | done].
Qed.

Lemma preserves_load x y : preserves x (load y).
Proof. intros st. unfold load. by destruct (globals st !! y). Qed.

Lemma preserves_store x y v : x ≠ y → preserves x (store y v).
Proof. intros Hxy st. simpl. by rewrite lookup_insert_ne. Qed.

Lemma blind_as_int v : blind (as_int v).
Proof. by destruct v. Qed.
Lemma blind_as_str v : blind (as_str v).
Proof. by destruct v. Qed.
Lemma blind_as_font v : blind (as_font v).
Proof. by destruct v. Qed.
Lemma blind_as_image v : blind (as_image v).
Proof. by destruct v. Qed.
Lemma blind_as_draw v : blind (as_draw v).
Proof. by destruct v. Qed.
Lemma blind_as_iterable v : blind (as_iterable v).
Proof. by destruct v. Qed.
Lemma blind_as_color v : blind (as_color v).
Proof. by destruct v as [| |[|?[|?[|?[|??]]]]|[|?[|?[|?[|??]]]]| | |]. Qed.
Lemma blind_as_point v : blind (as_point v).
Proof. by destruct v as [| |[|?[|?[|??]]]|[|?[|?[|??]]]| | |]. Qed.
Lemma blind_subscript v i : blind (subscript v i).
Proof. destruct v; try done; simpl; by destruct (_ !! _). Qed.
Lemma blind_format_value v : blind (format_value v).
Proof. by destruct v. Qed.
Lemma blind_ImageDraw_Draw im : blind (ImageDraw_Draw im).
Proof. unfold ImageDraw_Draw. auto with blind. Qed.

#[local] Hint Resolve blind_as_int blind_as_str blind_as_font blind_as_image
  blind_as_draw blind_as_iterable blind_as_color blind_as_point
  blind_subscript blind_format_value blind_ImageDraw_Draw : blind.

(** Decides [preserves x m] along the structure of [m]; a [store] needs its
    name to differ from [x]. *)
Ltac frame :=
  repeat first
    [ apply preserves_load
    | apply preserves_store; first [assumption | discriminate]
    | apply preserves_blind; solve [auto with blind]
    | apply preserves_bind; [|intros ?]
    | apply preserves_try_except; [|intros ?] ].

(** From [x ∉ [a; b; ...]] to [x ≠ a], [x ≠ b], ... *)
Ltac apart H :=
  repeat (apply not_elem_of_cons in H as [? H]).

Section Frames.
Context (P : Platform).

Lemma preserves_render_icon x :
  x ∉ LOOP_VARIABLES → preserves x (render_icon P).
Proof.
  intros Hx. unfold LOOP_VARIABLES in Hx. apart Hx.
  unfold render_icon, new_canvas, choose_font, measure_text, draw_glyph,
    save_icon.
  frame.
Qed.

Lemma preserves_for_in x sizes (body : M unit) :
  x ≠ "size" → preserves x body → preserves x (for_in "size" sizes body).
Proof.
  intros Hx Hb. induction sizes as [|size sizes IH]; simpl; frame; done.
Qed.

Lemma preserves_render_all x :
  x ∉ LOOP_VARIABLES → preserves x (render_all P).
Proof.
  intros Hx. unfold render_all. frame.
  apply preserves_for_in; [|by apply preserves_render_icon].
  unfold LOOP_VARIABLES in Hx. by apart Hx.
Qed.

Lemma configured_preserved {A} (m : M A) st :
  (∀ x, x ∈ CONSTANTS → preserves x m) →
  configured st → configured (m st).2.
Proof.
  intros Hm (H1 & H2 & H3 & H4). unfold configured.
  rewrite !Hm by (unfold CONSTANTS; set_solver). done.
Qed.

Lemma constant_not_loop_variable x :
  x ∈ CONSTANTS → x ∉ LOOP_VARIABLES.
Proof.
  unfold CONSTANTS, LOOP_VARIABLES. intros Hx.
  repeat (apply elem_of_cons in Hx as [->|Hx]); [..|by apply elem_of_nil in Hx];
    intros Hy;
    repeat (apply elem_of_cons in Hy as [Hy|Hy]; [discriminate|]);
    by apply elem_of_nil in Hy.
Qed.
End Frames.

(** ** The script does what its reading does *)

Lemma effects_bind_same {A B} (m : M A) (k k' : A → M B) st :
  (∀ a st1, effects (k a st1) = effects (k' a st1)) →
  effects (bind m k st) = effects (bind m k' st).
Proof.
  intros Hk. unfold bind. destruct (m st) as [[a|e] st1]; [apply Hk | done].
Qed.

Lemma effects_bind_blind {A B} (m m' : M A) (k : A → M B) st st' :
  effects (m st) = effects (m' st') →
  (∀ a, blind (k a)) →
  effects (bind m k st) = effects (bind m' k st').
Proof.
  intros Hm Hk. unfold bind.
  destruct (m st) as [[a|e] st1], (m' st') as [[a'|e'] st1'];
    unfold effects in Hm; simpl in Hm; simplify_eq.
  - by apply blind_effects.
  - unfold effects. simpl. congruence.
Qed.

Section Whole.
Context (P : Platform).

Lemma configured_store_size st size :
  configured st →
  configured (set_globals (<["size" := VInt size]> (globals st)) st).
Proof.
  intros (H1 & H2 & H3 & H4). unfold configured. simpl.
  by rewrite !lookup_insert_ne by discriminate.
Qed.

Lemma for_in_icons sizes st :
  configured st →
  effects (for_in "size" sizes (render_icon P) st) =
    effects (icons P sizes st).
Proof.
  revert st. induction sizes as [|size sizes IH]; intros st Hc; [done|].
  cbn [for_in icons].
  set (st1 := set_globals (<["size" := VInt size]> (globals st)) st).
  change (effects ((render_icon P ;; for_in "size" sizes (render_icon P))
                     st1) =
          effects ((icon P size ;; icons P sizes) st)).
  assert (configured st1) as Hc1 by by apply configured_store_size.
  assert (effects (render_icon P st1) = effects (icon P size st)) as E.
  { rewrite (render_icon_icon P st1 size Hc1)
      by (simpl; by rewrite lookup_insert_eq).
    by apply blind_effects; auto with blind. }
  pose proof (configured_preserved (render_icon P) st1
    (λ x Hx, preserves_render_icon P x (constant_not_loop_variable x Hx))
    Hc1) as Hc2.
  unfold bind.
  destruct (render_icon P st1) as [[[]|e] st2],
    (icon P size st) as [[[]|e'] st2'];
    unfold effects in E; simpl in E; simplify_eq.
  - rewrite IH by done. by apply blind_effects; auto with blind.
  - unfold effects. simpl. congruence.
Qed.

Lemma main_program st :
  effects (main P st) = effects (program P st).
Proof.
  unfold main, program. apply effects_bind_same. intros [] st1.
  destruct st1 as [g h f l]. unfold configure, ensure_output_dir. exec.
  match goal with
  | |- context [os_makedirs P ?d ?b (mkState ?g' h f l)] =>
      change (mkState g' h f l) with (set_globals g' (mkState g h f l));
      rewrite (blind_os_makedirs P d b)
  end.
  destruct (os_makedirs P OUTPUT_DIR true _) as [[[]|e] st2]; exec;
    [|reflexivity].
  unfold render_all. exec.
  match goal with
  | |- context [for_in _ _ _ ?s] =>
    match goal with
    | |- context [icons _ _ ?s'] =>
      exact (effects_bind_blind (for_in "size" SIZES (render_icon P))
               (icons P SIZES) (λ _, report P) s s'
               (eq_trans (for_in_icons SIZES s
                            ltac:(repeat split; simpl; look; reflexivity))
                  (blind_effects (icons P SIZES) s s'
                     (blind_icons P SIZES) eq_refl eq_refl eq_refl))
               (λ _, blind_bind _ _ (blind_print _ _)
                       (λ _, blind_print _ _)))
    end
  end.
Qed.
End Whole.

(** ** One iteration, step by step *)

Section Icon.
Context (P : Platform).

Lemma Image_save_run g h f l im image path :
  h !! im = Some image →
  Image_save P im path "PNG" (mkState g h f l) =
    let l' := l ++ [EvSave im path "PNG"] in
    if is_dir (f !! path) then (Raise IsADirectoryError, mkState g h f l')
    else
      match parent_error f path with
      | Some e => (Raise e, mkState g h f l')
      | None =>
          match write_error P path with
          | Some (e, d) => (Raise e, mkState g h (litter d path f) l')
          | None =>
              (Ok tt,
               mkState g h (<[path := File (png_encode P image)]> f) l')
          end
      end.
Proof.
  intros Him. unfold Image_save, path_isdir, check_parent, leave. exec.
  rewrite (bool_decide_eq_true_2 ("PNG" = "PNG")) by reflexivity. exec.
  destruct (is_dir (f !! path)); exec; [reflexivity|].
  destruct (parent_error f path); exec; [reflexivity|].
  destruct (write_error P path) as [[e d]|]; exec; reflexivity.
Qed.

Lemma pick_font_run g h f l size :
  pick_font P size (mkState g h f l) =
    (Ok (picked_font P size), mkState g h f (l ++ font_events P size)).
Proof.
  unfold pick_font, picked_font, font_events, ImageFont_truetype,
    ImageFont_load_default. exec.
  destruct (scaled_font_size size) as [n|e]; exec; [|reflexivity].
  destruct (truetype_error P _ n); exec; [|reflexivity].
  by rewrite <- app_assoc.
Qed.

Lemma icon_run g h f l size :
  icon P size (mkState g h f l) =
    if size <? 0
    then (Raise ValueError,
          mkState g h f (l ++ [EvImageNew "RGB" (size, size) BG_COLOR]))
    else
    let l1 := l ++ [EvImageNew "RGB" (size, size) BG_COLOR;
                    EvImageDraw (length h)] in
    let font := picked_font P size in
    let canvas := blank_image "RGB" size size BG_COLOR in
    let l2 := (l1 ++ font_events P size) ++ [EvTextbbox (0, 0) "R" font] in
    match measure P (0, 0) "R" font with
    | Raise e => (Raise e, mkState g (h ++ [canvas]) f l2)
    | Ok box =>
        let xy := centered size box in
        let l3 := l2 ++ [EvDrawText (length h) canvas xy "R" TEXT_COLOR
                           font] in
        match render P canvas xy "R" TEXT_COLOR font with
        | Raise e => (Raise e, mkState g (h ++ [canvas]) f l3)
        | Ok drawn =>
            (Image_save P (length h) (output_path size) "PNG" ;;
             print P ("Created " +:+ output_path size))
              (mkState g (h ++ [drawn]) f l3)
        end
    end.
Proof.
  unfold icon, Image_new. crank. rewrite orb_diag.
  destruct (size <? 0); crank; [reflexivity|].
  unfold ImageDraw_Draw. exec. rewrite <- (app_assoc l [_] [_]). cbn [app].
  rewrite pick_font_run. unfold draw_textbbox. exec.
  destruct (measure P _ _ _) as [box|e]; exec; [|reflexivity].
  unfold draw_text. exec.
  destruct (render P _ _ _ _ _) as [drawn|e]; exec; reflexivity.
Qed.
End Icon.

(** ** Paths and sizes of this script *)

Lemma ancestors_OUTPUT_DIR : ancestors OUTPUT_DIR = ["assets"].
Proof. reflexivity. Qed.

Lemma parent_assets : parent "assets" = None.
Proof. reflexivity. Qed.

Lemma parent_OUTPUT_DIR : parent OUTPUT_DIR = Some "assets".
Proof. reflexivity. Qed.

Lemma SIZES_cases size :
  size ∈ SIZES → size = 16 ∨ size = 48 ∨ size = 128.
Proof.
  unfold SIZES. intros H.
  repeat (apply elem_of_cons in H as [H|H]; [auto|]).
  by apply elem_of_nil in H.
Qed.

Lemma output_path_facts size :
  size ∈ SIZES →
  (size <? 0) = false ∧
  parent (output_path size) = Some OUTPUT_DIR ∧
  output_path size ≠ OUTPUT_DIR ∧
  output_path size ≠ "assets".
Proof.
  intros [->|[->| ->]]%SIZES_cases; by vm_compute.
Qed.

Lemma output_path_distinct s1 s2 :
  s1 ∈ SIZES → s2 ∈ SIZES → s1 ≠ s2 → output_path s1 ≠ output_path s2.
Proof.
  intros [->|[->| ->]]%SIZES_cases [->|[->| ->]]%SIZES_cases Hne;
    try done; by vm_compute.
Qed.

(** ** [os.makedirs(OUTPUT_DIR, exist_ok=True)] *)

Section Makedirs.
Context (P : Platform).

Ltac mk_unfold :=
  unfold os_makedirs; rewrite ?ancestors_OUTPUT_DIR; cbn [makedirs];
  unfold os_mkdir, path_exists, path_isdir, check_parent, parent_error;
  rewrite ?parent_assets, ?parent_OUTPUT_DIR.

Ltac mk_ask :=
  match goal with
  | |- context [mkdir_error P ?p] =>
      destruct (mkdir_error P p) as [?e|] eqn:?
  | |- context [isinstance_FileExistsError ?e] =>
      destruct (isinstance_FileExistsError e) eqn:?
  | |- context [isinstance_OSError ?e] =>
      destruct (isinstance_OSError e) eqn:?
  end.

Ltac mk_crank :=
  cbv beta iota zeta delta
    [bind ret raise tell emit set_fs set_globals globals heap fs log
     try_except present is_dir negb orb fst snd].

Ltac mk_exec := repeat (progress (mk_crank; look; known)).

(** Whatever happens, only the two directories can change, nothing that
    exists is lost, and one call is logged. *)
Lemma os_makedirs_frame g h f l :
  ∃ r f',
    os_makedirs P OUTPUT_DIR true (mkState g h f l) =
      (r, mkState g h f' (l ++ [EvMakedirs OUTPUT_DIR true])) ∧
    (∀ p, p ≠ "assets" → p ≠ OUTPUT_DIR → f' !! p = f !! p) ∧
    (∀ p n, f !! p = Some n → f' !! p = Some n) ∧
    (r = Ok tt → f' !! OUTPUT_DIR = Some Dir).
Proof.
  mk_unfold.
  destruct (f !! "assets") as [[|d1]|] eqn:Ha;
    destruct (f !! OUTPUT_DIR) as [[|d2]|] eqn:Hb;
    mk_exec; repeat (mk_ask; mk_exec);
    eexists _, _; (split; [reflexivity|]);
    repeat split; try done;
    intros; repeat (rewrite lookup_insert_ne by congruence); try done.
  all: try (destruct (decide (p = "assets")) as [->|];
       [simplify_eq | by rewrite lookup_insert_ne by congruence]).
  all: try (destruct (decide (p = OUTPUT_DIR)) as [->|];
       [simplify_eq | by rewrite ?lookup_insert_ne by congruence]).
  all: try by rewrite lookup_insert_eq.
Qed.

(** A directory that is there is left as it is. *)
Lemma os_makedirs_exists g h f l :
  f !! OUTPUT_DIR = Some Dir →
  present (f !! "assets") = true →
  os_makedirs P OUTPUT_DIR true (mkState g h f l) =
    (Ok tt, mkState g h f (l ++ [EvMakedirs OUTPUT_DIR true])).
Proof.
  intros Hb Ha. mk_unfold.
  destruct (f !! "assets") as [n|] eqn:E; [|done]. by mk_exec.
Qed.

(** A directory that is missing is made, with the parent if that is
    missing too. *)
Lemma os_makedirs_creates_both g h f l :
  f !! "assets" = None →
  f !! OUTPUT_DIR = None →
  mkdir_error P "assets" = None →
  mkdir_error P OUTPUT_DIR = None →
  os_makedirs P OUTPUT_DIR true (mkState g h f l) =
    (Ok tt,
     mkState g h (<[OUTPUT_DIR := Dir]> (<["assets" := Dir]> f))
       (l ++ [EvMakedirs OUTPUT_DIR true])).
Proof.
  intros Ha Hb Hma Hmb. mk_unfold. mk_exec. rewrite Hma. mk_exec.
  rewrite Hmb. by mk_exec.
Qed.

Lemma os_makedirs_creates_leaf g h f l :
  f !! "assets" = Some Dir →
  f !! OUTPUT_DIR = None →
  mkdir_error P OUTPUT_DIR = None →
  os_makedirs P OUTPUT_DIR true (mkState g h f l) =
    (Ok tt,
     mkState g h (<[OUTPUT_DIR := Dir]> f)
       (l ++ [EvMakedirs OUTPUT_DIR true])).
Proof.
  intros Ha Hb Hmb. mk_unfold. mk_exec. rewrite Hmb. by mk_exec.
Qed.

(** Nothing in the way and nothing refused: the call succeeds. *)
Lemma os_makedirs_ok g h f l :
  (∀ data, f !! "assets" ≠ Some (File data)) →
  (∀ data, f !! OUTPUT_DIR ≠ Some (File data)) →
  (∀ path, mkdir_error P path = None) →
  (os_makedirs P OUTPUT_DIR true (mkState g h f l)).1 = Ok tt.
Proof.
  intros Ha Hb Hm. mk_unfold.
  destruct (f !! "assets") as [[|d1]|] eqn:Ea; [| by destruct (Ha d1) |];
    (destruct (f !! OUTPUT_DIR) as [[|d2]|] eqn:Eb;
      [| by destruct (Hb d2) |]);
    mk_exec; rewrite ?Hm; mk_exec; rewrite ?Hm; by mk_exec.
Qed.

(** A call that succeeded succeeds again on what it left, and changes
    nothing. *)
Lemma os_makedirs_again g h f l st' g2 h2 f2 l2 :
  os_makedirs P OUTPUT_DIR true (mkState g h f l) = (Ok tt, st') →
  f2 !! "assets" = fs st' !! "assets" →
  f2 !! OUTPUT_DIR = fs st' !! OUTPUT_DIR →
  os_makedirs P OUTPUT_DIR true (mkState g2 h2 f2 l2) =
    (Ok tt, mkState g2 h2 f2 (l2 ++ [EvMakedirs OUTPUT_DIR true])).
Proof.
  mk_unfold.
  destruct (f !! "assets") as [[|d1]|] eqn:Ha;
    destruct (f !! OUTPUT_DIR) as [[|d2]|] eqn:Hb;
    mk_exec; repeat (mk_ask; mk_exec);
    intros [= <-] Ha2 Hb2; cbn [fs] in Ha2, Hb2;
    rewrite ?lookup_insert_eq, ?lookup_insert_ne in Ha2, Hb2
      by discriminate;
    rewrite ?Ha, ?Hb in Ha2, Hb2;
    repeat match goal with
           | H : mkdir_error P ?p = _ |- _ => rewrite H
           | H : isinstance_OSError ?e = _ |- _ => rewrite H
           | H : isinstance_FileExistsError ?e = _ |- _ => rewrite H
           | _ => progress mk_exec
           end;
    first [reflexivity | congruence].
Qed.
End Makedirs.

(** ** One iteration: what it logs, what it writes *)

Section IconFacts.
Context (P : Platform).

(** Opens an iteration into its cases. *)
Ltac icon_cases size :=
  rewrite icon_run; cbv zeta;
  destruct (size <? 0) eqn:?;
  [| unfold artwork, icon_log, printed;
     destruct (measure P (0, 0) "R" (picked_font P size)) as [?box|?e] eqn:?;
     [| idtac];
     [ destruct (render P _ (centered size _) "R" TEXT_COLOR _)
         as [?drawn|?e] eqn:?;
       [ cbv beta iota delta [bind];
         erewrite Image_save_run by apply lookup_snoc; cbv zeta;
         destruct (is_dir (_ !! output_path size)) eqn:?;
         [| destruct (parent_error _ (output_path size)) as [?e|] eqn:?;
            [| destruct (write_error P (output_path size))
                 as [[?e ?d]|] eqn:?;
               [| unfold print;
                  destruct (print_error P ("Created " +:+ output_path size))
                    as [?e|] eqn:?;
                  cbv beta iota delta [bind tell raise emit];
                  cbn [globals heap fs log] ] ] ]
       | ]
     | ] ].

Lemma icon_ok g h f l size st' :
  icon P size (mkState g h f l) = (Ok tt, st') →
  (size <? 0) = false ∧
  ∃ drawn,
    artwork P size = Ok drawn ∧
    is_dir (f !! output_path size) = false ∧
    parent_error f (output_path size) = None ∧
    write_error P (output_path size) = None ∧
    st' = mkState g (h ++ [drawn])
            (<[output_path size := File (png_encode P drawn)]> f)
            (l ++ icon_log P size (length h)).
Proof.
  icon_cases size; intros [= <-]; try done.
  split; [done|]. eexists. repeat (split; [done|]).
  repeat rewrite <- app_assoc. reflexivity.
Qed.

(** An iteration that completes printed its confirmation. *)
Lemma icon_ok_printed g h f l size st' :
  icon P size (mkState g h f l) = (Ok tt, st') →
  print_error P ("Created " +:+ output_path size) = None.
Proof. icon_cases size; intros [= <-]; done. Qed.

Lemma icon_succeeds g h f l size drawn :
  (size <? 0) = false →
  artwork P size = Ok drawn →
  is_dir (f !! output_path size) = false →
  parent_error f (output_path size) = None →
  write_error P (output_path size) = None →
  print_error P ("Created " +:+ output_path size) = None →
  icon P size (mkState g h f l) =
    (Ok tt,
     mkState g (h ++ [drawn])
       (<[output_path size := File (png_encode P drawn)]> f)
       (l ++ icon_log P size (length h))).
Proof.
  intros H0 Ha Hd Hp Hw Hpr. revert Ha.
  icon_cases size; intros; simplify_eq.
  repeat rewrite <- app_assoc. reflexivity.
Qed.

(** An iteration that fails: only its own path can have changed on the
    disk, nothing was printed, and what it logged begins the log of a
    complete iteration. *)
Lemma icon_fails g h f l size e st' :
  icon P size (mkState g h f l) = (Raise e, st') →
  globals st' = g ∧
  (∀ p, p ≠ output_path size → fs st' !! p = f !! p) ∧
  ∃ evs, log st' = l ++ evs ∧
         evs `prefix_of` icon_log P size (length h) ∧
         filter (λ ev, is_print ev = true) evs = [].
Proof.
  icon_cases size; intros [= <- <-]; cbn [globals fs log];
    (split; [done|]); split.
  all: try (intros p Hp; try destruct d; cbn [litter];
            by rewrite ?lookup_insert_ne, ?lookup_delete_ne by done).
  all: repeat rewrite <- app_assoc; eexists; (split; [reflexivity|]).
  all: split;
    [ unfold icon_log; repeat (apply prefix_app || apply prefix_cons);
      try apply prefix_nil
    | rewrite ?filter_app; unfold font_events;
      repeat case_match; reflexivity ].
  all: try (rewrite ?app_nil_r; by apply prefix_app_r || done).
Qed.
End IconFacts.

(** ** The loop *)

Section Loop.
Context (P : Platform).

Lemma icons_cons size sizes st :
  icons P (size :: sizes) st =
    match icon P size st with
    | (Ok _, st1) => icons P sizes st1
    | (Raise e, st1) => (Raise e, st1)
    end.
Proof. reflexivity. Qed.

(** Whatever happens, the loop logs a prefix of the log of a complete
    loop, and all of it when it completes. *)
Lemma icons_log_prefix sizes g h f l :
  ∃ evs,
    log (icons P sizes (mkState g h f l)).2 = l ++ evs ∧
    evs `prefix_of` icons_log P sizes (length h) ∧
    ((icons P sizes (mkState g h f l)).1 = Ok tt →
     evs = icons_log P sizes (length h)).
Proof.
  revert g h f l. induction sizes as [|size sizes IH]; intros g h f l.
  { exists []. simpl. by rewrite app_nil_r. }
  rewrite icons_cons.
  destruct (icon P size (mkState g h f l)) as [[[]|e] st1] eqn:E.
  - apply icon_ok in E as (_ & drawn & _ & _ & _ & _ & ->).
    destruct (IH g (h ++ [drawn])
                (<[output_path size := File (png_encode P drawn)]> f)
                (l ++ icon_log P size (length h)))
      as (evs & Hlog & Hpre & Hok).
    exists (icon_log P size (length h) ++ evs).
    rewrite Hlog, app_assoc. split; [done|].
    rewrite length_app, Nat.add_1_r in Hpre, Hok. cbn [icons_log]. split.
    + by apply prefix_app.
    + intros H'. by rewrite Hok.
  - apply icon_fails in E as (_ & _ & evs & Hlog & Hpre & _).
    exists evs. cbn [icons_log fst snd]. split; [done|].
    split; [by apply prefix_app_r | done].
Qed.

(** A loop that completes: every picture could be made and written, is on
    the heap and, encoded, in its file; nothing else changed. *)
Lemma icons_ok sizes g h f l st' :
  (∀ s, s ∈ sizes → s ∈ SIZES) →
  NoDup sizes →
  icons P sizes (mkState g h f l) = (Ok tt, st') →
  globals st' = g ∧
  (∃ ims, heap st' = h ++ ims ∧
          Forall2 (λ s im, artwork P s = Ok im) sizes ims) ∧
  (∀ s, s ∈ sizes →
     ∃ drawn, artwork P s = Ok drawn ∧
              write_error P (output_path s) = None ∧
              fs st' !! output_path s = Some (File (png_encode P drawn)) ∧
              fs st' !! OUTPUT_DIR = Some Dir) ∧
  (∀ p, (∀ s, s ∈ sizes → p ≠ output_path s) → fs st' !! p = f !! p).
Proof.
  revert g h f l. induction sizes as [|size sizes IH];
    intros g h f l Hin Hnd.
  { intros [= <-]. simpl. split; [done|]. split.
    - exists []. by rewrite app_nil_r.
    - split; [|done]. intros s Hs. by apply elem_of_nil in Hs. }
  rewrite icons_cons.
  destruct (icon P size (mkState g h f l)) as [[[]|e] st1] eqn:E; [|done].
  apply icon_ok in E as (_ & drawn & Hart & _ & Hpar & Hw & ->).
  apply NoDup_cons in Hnd as [Hnotin Hnd].
  assert (size ∈ SIZES) as Hsize by (apply Hin; left).
  destruct (output_path_facts size Hsize) as (_ & Hparent & Hne1 & Hne2).
  intros Hrun.
  apply IH in Hrun as (Hg & (ims & Hheap & Hims) & Hfiles & Hframe);
    [| by intros s Hs; apply Hin; right | done].
  split; [done|]. split.
  { exists (drawn :: ims). rewrite Hheap, <- app_assoc. split; [done|].
    by constructor. }
  assert (f !! OUTPUT_DIR = Some Dir) as Hdir.
  { unfold parent_error in Hpar. rewrite Hparent in Hpar.
    by destruct (f !! OUTPUT_DIR) as [[]|]. }
  split.
  - intros s [->|Hs]%elem_of_cons.
    + exists drawn. repeat (split; [done|]).
      assert (∀ p, (∀ s, s ∈ sizes → p ≠ output_path s) →
                   p ≠ output_path size → fs st' !! p = f !! p) as Hf.
      { intros p Hp Hp'. rewrite Hframe by done.
        by rewrite lookup_insert_ne. }
      split.
      * rewrite Hframe, lookup_insert_eq; [done|].
        intros s Hs. apply output_path_distinct; [done|by apply Hin; right|].
        intros ->. done.
      * rewrite Hf; [done| |done].
        intros s Hs. symmetry.
        apply (output_path_facts s). apply Hin. by right.
    + by apply Hfiles.
  - intros p Hp. rewrite Hframe.
    + rewrite lookup_insert_ne; [done|]. symmetry. apply Hp. left.
    + intros s Hs. apply Hp. by right.
Qed.

(** A loop that completes printed every confirmation. *)
Lemma icons_ok_printed sizes st st' :
  icons P sizes st = (Ok tt, st') →
  ∀ s, s ∈ sizes → print_error P ("Created " +:+ output_path s) = None.
Proof.
  revert st. induction sizes as [|size sizes IH]; intros st.
  { intros _ s Hs. by apply elem_of_nil in Hs. }
  rewrite icons_cons.
  destruct (icon P size st) as [[[]|e] st1] eqn:E; [|done].
  intros Hrest s [->|Hs]%elem_of_cons; [|by eapply IH].
  destruct st. by eapply icon_ok_printed.
Qed.

Lemma ready_insert f size data :
  size ∈ SIZES → ready f → ready (<[output_path size := File data]> f).
Proof.
  intros Hsize [Hdir Hfiles]. split.
  - rewrite lookup_insert_ne; [done|]. apply (output_path_facts size Hsize).
  - intros s Hs. destruct (decide (output_path size = output_path s)) as [<-|].
    + by rewrite lookup_insert_eq.
    + rewrite lookup_insert_ne by done. by apply Hfiles.
Qed.

(** On a ready disk, a loop whose pictures can be made and written, and
    whose confirmations can be printed, completes. *)
Lemma icons_succeed sizes g h f l :
  (∀ s, s ∈ sizes → s ∈ SIZES) →
  (∀ s, s ∈ sizes → ∃ drawn, artwork P s = Ok drawn ∧
                             write_error P (output_path s) = None) →
  (∀ s, s ∈ sizes → print_error P ("Created " +:+ output_path s) = None) →
  ready f →
  (icons P sizes (mkState g h f l)).1 = Ok tt.
Proof.
  revert g h f l. induction sizes as [|size sizes IH];
    intros g h f l Hin Hok Hpr Hready; [done|].
  assert (size ∈ SIZES) as Hsize by (apply Hin; left).
  destruct (Hok size) as (drawn & Hart & Hw); [left|].
  destruct (output_path_facts size Hsize) as (Hpos & Hparent & _).
  rewrite icons_cons, (icon_succeeds P g h f l size drawn); try done.
  - apply IH; [by intros s Hs; apply Hin; right
              | by intros s Hs; apply Hok; right
              | by intros s Hs; apply Hpr; right
              | by apply ready_insert].
  - by apply Hready.
  - unfold parent_error. rewrite Hparent. by destruct Hready as [-> _].
  - apply Hpr. left.
Qed.
End Loop.

(** ** The whole program *)

Section Program.
Context (P : Platform).

Lemma print_run line st :
  print P line st =
    (match print_error P line with
     | None => Ok tt
     | Some e => Raise e
     end,
     emit (printed P line) st).
Proof. unfold print, printed. by destruct (print_error P line). Qed.

Lemma imports_run st :
  imports P st =
    match import_error P with
    | None => (Ok tt, st)
    | Some e =>
        if isinstance_ImportError e
        then (match print_error P
                      "Pillow not installed. Run: pip install Pillow" with
              | None => Raise (SystemExit 1)
              | Some e' => Raise e'
              end,
              emit (printed P "Pillow not installed. Run: pip install Pillow")
                st)
        else (Raise e, st)
    end.
Proof.
  unfold imports, try_except. destruct (import_error P) as [e|]; [|done].
  cbn [raise]. destruct (isinstance_ImportError e); [|done].
  unfold bind. rewrite print_run. by destruct (print_error P _).
Qed.

Lemma imports_Ok st st' :
  imports P st = (Ok tt, st') → import_error P = None.
Proof.
  rewrite imports_run. destruct (import_error P) as [e|]; [|done].
  destruct (isinstance_ImportError e); [|done].
  by destruct (print_error P _).
Qed.

Lemma program_run st :
  import_error P = None →
  program P st =
    match os_makedirs P OUTPUT_DIR true st with
    | (Ok _, st1) =>
        match icons P SIZES st1 with
        | (Ok _, st2) => report P st2
        | (Raise e, st2) => (Raise e, st2)
        end
    | (Raise e, st1) => (Raise e, st1)
    end.
Proof.
  intros Hi. unfold program, bind. by rewrite imports_run, Hi.
Qed.

Lemma report_run st :
  report P st =
    (report_result P,
     mkState (globals st) (heap st) (fs st) (log st ++ report_said P)).
Proof.
  unfold report, report_result, report_said, bind. rewrite print_run.
  unfold printed.
  destruct (print_error P (newline +:+ _)); [reflexivity|].
  rewrite print_run. unfold printed, emit. cbn [globals heap fs log].
  rewrite <- app_assoc. by destruct (print_error P _).
Qed.

Lemma report_said_prefix : report_said P `prefix_of` report_log P.
Proof.
  unfold report_said, report_log, printed.
  destruct (print_error P (newline +:+ _)); [|done].
  apply prefix_cons, prefix_nil.
Qed.

(** The closing [print]s that both succeed. *)
Lemma report_result_Ok :
  report_result P = Ok tt →
  print_error P (newline +:+ "Icons created successfully!") = None ∧
  print_error P "You can now load the extension in Chrome." = None ∧
  report_said P = report_log P ∧
  report_log P =
    [EvPrint (newline +:+ "Icons created successfully!");
     EvPrint "You can now load the extension in Chrome."].
Proof.
  unfold report_result, report_said, report_log, printed.
  destruct (print_error P (newline +:+ _)); [done|].
  by destruct (print_error P _).
Qed.

Lemma report_result_accepted :
  print_error P (newline +:+ "Icons created successfully!") = None →
  print_error P "You can now load the extension in Chrome." = None →
  report_result P = Ok tt.
Proof. unfold report_result. by intros -> ->. Qed.

(** With Pillow, a run logs a prefix of [full_log], all of it when it
    completes. *)
Lemma program_log disk :
  import_error P = None →
  log (program P (initial disk)).2 `prefix_of` full_log P ∧
  ((program P (initial disk)).1 = Ok tt →
   log (program P (initial disk)).2 = full_log P).
Proof.
  intros Hi. rewrite program_run by done. unfold initial, full_log.
  destruct (os_makedirs_frame P ∅ [] disk []) as (r & f' & -> & _).
  destruct r as [[]|e]; cbn [app fst snd log];
    [| split; [by apply prefix_cons, prefix_nil | done] ].
  destruct (icons_log_prefix P SIZES ∅ [] f' [EvMakedirs OUTPUT_DIR true])
    as (evs & Hlog & Hpre & Hok).
  destruct (icons P SIZES _) as [[[]|e] st2]; cbn [fst snd] in *.
  - rewrite report_run. cbn [log fst snd]. rewrite Hlog, Hok by done.
    rewrite <- app_assoc. cbn [app]. split.
    + apply prefix_cons, prefix_app, report_said_prefix.
    + by intros (_ & _ & -> & _)%report_result_Ok.
  - rewrite Hlog. split; [|done]. apply prefix_cons.
    by apply prefix_app_r.
Qed.

(** A run that completes. *)
Lemma program_ok disk st' :
  program P (initial disk) = (Ok tt, st') →
  import_error P = None ∧
  ∃ st1 st2,
    os_makedirs P OUTPUT_DIR true (initial disk) = (Ok tt, st1) ∧
    icons P SIZES st1 = (Ok tt, st2) ∧
    st' = mkState (globals st2) (heap st2) (fs st2)
            (log st2 ++ report_log P).
Proof.
  intros Hrun.
  assert (import_error P = None) as Hi.
  { revert Hrun. unfold program, bind.
    destruct (imports P (initial disk)) as [[[]|e] st0] eqn:E; [|done].
    intros _. by eapply imports_Ok. }
  split; [done|]. rewrite program_run in Hrun by done.
  destruct (os_makedirs P _ _ _) as [[[]|e] st1] eqn:E1; [|done].
  destruct (icons P SIZES st1) as [[[]|e] st2] eqn:E2; [|done].
  rewrite report_run in Hrun. exists st1, st2.
  injection Hrun as (_ & _ & -> & _)%report_result_Ok <-. done.
Qed.

(** A run that completes printed its closing lines. *)
Lemma program_ok_printed disk :
  (program P (initial disk)).1 = Ok tt → report_result P = Ok tt.
Proof.
  unfold program, bind.
  destruct (imports P _) as [[[]|e] st0]; [|done].
  destruct (os_makedirs P _ _ _) as [[[]|e] st1]; [|done].
  destruct (icons P SIZES st1) as [[[]|e] st2]; [|done].
  by rewrite report_run.
Qed.

Lemma NoDup_SIZES : NoDup SIZES.
Proof.
  unfold SIZES. repeat (apply NoDup_cons; split);
    [| |  | apply NoDup_nil_2];
    rewrite ?elem_of_cons, elem_of_nil; intuition lia.
Qed.

(** When nothing but the font can fail, the run completes. *)
Lemma program_succeeds disk :
  cooperative P disk → (program P (initial disk)).1 = Ok tt.
Proof.
  intros (Hi & Hm & Hr & Hmk & Hw & Hpr & Ha & Hb & Hfiles).
  rewrite program_run by done. unfold initial.
  pose proof (os_makedirs_ok P ∅ [] disk [] Ha Hb Hmk) as Hok.
  destruct (os_makedirs_frame P ∅ [] disk [])
    as (r & f' & E & Hframe & Hkeep & Hdir).
  rewrite E in Hok |- *. cbn [fst] in Hok. subst r.
  pose proof (icons_succeed P SIZES ∅ [] f' [EvMakedirs OUTPUT_DIR true])
    as Hicons.
  destruct (icons P SIZES _) as [[[]|e] st2]; cbn [fst] in *.
  - rewrite report_run. by apply report_result_accepted.
  - exfalso. enough (Raise e = Ok tt) by done.
    apply Hicons; [done| |done|].
    + intros s _. unfold artwork.
      destruct (Hm (0, 0) "R" (picked_font P s)) as [box ->].
      destruct (Hr (blank_image "RGB" s s BG_COLOR) (centered s box) "R"
                  TEXT_COLOR (picked_font P s)) as [drawn ->].
      by exists drawn.
    + split; [by apply Hdir|]. intros s Hs.
      destruct (output_path_facts s Hs) as (_ & _ & Hne1 & Hne2).
      rewrite Hframe by done. specialize (Hfiles s Hs).
      by destruct (disk !! output_path s) as [[]|].
Qed.
End Program.

(** ** From the reading back to the script *)

Lemma run_fst P disk : (run P disk).1 = termination_of (main P (initial disk)).1.
Proof. unfold run. by destruct (main P (initial disk)). Qed.

Lemma run_snd P disk : (run P disk).2 = (main P (initial disk)).2.
Proof. unfold run. by destruct (main P (initial disk)). Qed.


(** Nothing printed, nothing to flush. *)
Lemma flush_failed_quiet P st : stdout st = "" → flush_failed P st = false.
Proof. unfold flush_failed. by intros ->. Qed.




Lemma effects_inv {A} (x y : result A * State) :
  effects x = effects y →
  x.1 = y.1 ∧ heap x.2 = heap y.2 ∧ fs x.2 = fs y.2 ∧ log x.2 = log y.2.
Proof. unfold effects. intros [= -> -> -> ->]. done. Qed.

Lemma main_effects P disk :
  (main P (initial disk)).1 = (program P (initial disk)).1 ∧
  heap (main P (initial disk)).2 = heap (program P (initial disk)).2 ∧
  fs (main P (initial disk)).2 = fs (program P (initial disk)).2 ∧
  log (main P (initial disk)).2 = log (program P (initial disk)).2.
Proof. apply effects_inv, main_program. Qed.


Lemma run_succeeds P disk :
  cooperative P disk → (run P disk).1 = Finished.
Proof.
  intros Hc. rewrite run_fst.
  destruct (main_effects P disk) as (-> & _).
  by rewrite program_succeeds.
Qed.

Lemma macos_cooperative : cooperative macos ∅.
Proof.
  repeat split; try done.
  - intros xy text [path size|]; by eexists.
  - intros; by eexists.
Qed.

Lemma linux_cooperative : cooperative linux ∅.
Proof.
  repeat split; try done.
  - intros xy text [path size|]; by eexists.
  - intros; by eexists.
Qed.

Lemma configured_easel size : configured (easel size).
Proof. repeat split. Qed.

(** * The properties *)

(** ** The loop body *)




(** ** What is printed *)

Lemma append_cons (x : ascii) (a b : string) :
  String x a +:+ b = String x (a +:+ b).
Proof. reflexivity. Qed.

Lemma append_assoc (a b c : string) : (a +:+ b) +:+ c = a +:+ b +:+ c.
Proof.
  induction a as [|x a IH]; [done|]. by rewrite !append_cons, IH.
Qed.

Lemma append_empty_r (a : string) : a +:+ "" = a.
Proof.
  induction a as [|x a IH]; [done|]. by rewrite append_cons, IH.
Qed.

Lemma stdout_of_app l1 l2 :
  stdout_of (l1 ++ l2) = stdout_of l1 +:+ stdout_of l2.
Proof.
  induction l1 as [|ev l1 IH]; [done|].
  destruct ev; try done. cbn [app stdout_of foldr].
  change (foldr _ "" (l1 ++ l2)) with (stdout_of (l1 ++ l2)).
  change (foldr _ "" l1) with (stdout_of l1).
  by rewrite IH, !append_assoc.
Qed.

Lemma stdout_of_font_events P size : stdout_of (font_events P size) = "".
Proof. unfold font_events. by repeat case_match. Qed.

Lemma stdout_of_silent evs :
  filter (λ ev, is_print ev = true) evs = [] → stdout_of evs = "".
Proof.
  induction evs as [|ev evs IH]; [done|]. rewrite filter_cons.
  destruct ev; simpl; try done; by apply IH.
Qed.

(** ** The font size *)

(** For every size up to 4096 pixels, [int(size * 0.6)] in binary64
    arithmetic is the integer part of three fifths of the size. *)
Lemma scaled_font_size_small size :
  0 ≤ size ≤ 4096 → scaled_font_size size = Ok ((3 * size) `div` 5).
Proof.
  intros Hsize.
  assert (forallb (λ s, match scaled_font_size s with
                        | Ok n => n =? (3 * s) `div` 5
                        | Raise _ => false
                        end) (seqZ 0 4097) = true) as Hall
    by (vm_compute; reflexivity).
  rewrite forallb_forall in Hall. specialize (Hall size).
  destruct (scaled_font_size size) as [n|e].
  - f_equal. apply Z.eqb_eq, Hall, list_elem_of_In, elem_of_seqZ. lia.
  - discriminate Hall. apply list_elem_of_In, elem_of_seqZ. lia.
Qed.

Lemma float_0_6_nearest :
  SFdiv prec emax (binary_normalize prec emax 3 0 false)
    (binary_normalize prec emax 5 0 false) = float_0_6.
Proof. by vm_compute. Qed.

Ltac in_sizes := unfold SIZES; rewrite !elem_of_cons; lia.

(** ** Complete runs *)

Lemma termination_Finished r : termination_of r = Finished → r = Ok tt.
Proof. destruct r as [[]|[]]; done. Qed.

Lemma run_finished P disk :
  (run P disk).1 = Finished →
  ∃ st', program P (initial disk) = (Ok tt, st') ∧
         heap (run P disk).2 = heap st' ∧
         fs (run P disk).2 = fs st' ∧
         log (run P disk).2 = log st'.
Proof.
  rewrite run_fst, run_snd. intros Hr%termination_Finished.
  destruct (main_effects P disk) as (H1 & H2 & H3 & H4).
  exists (program P (initial disk)).2. rewrite H2, H3, H4.
  split; [|done]. rewrite Hr in H1.
  destruct (program P (initial disk)) as [r st']. simpl in *. by subst.
Qed.

Lemma artwork_measured P size drawn :
  artwork P size = Ok drawn →
  ∃ box, measure P (0, 0) "R" (picked_font P size) = Ok box ∧
         render P (blank_image "RGB" size size BG_COLOR) (centered size box)
           "R" TEXT_COLOR (picked_font P size) = Ok drawn.
Proof.
  unfold artwork. destruct (measure P _ _ _) as [box|e]; [|done].
  intros H. by exists box.
Qed.

(** A complete run: its log, its pictures, its files. *)
Lemma finished_run P disk :
  (run P disk).1 = Finished →
  import_error P = None ∧
  log (run P disk).2 = full_log P ∧
  (∃ st1 st2,
     os_makedirs P OUTPUT_DIR true (initial disk) = (Ok tt, st1) ∧
     icons P SIZES st1 = (Ok tt, st2) ∧
     heap (run P disk).2 = heap st2 ∧
     fs (run P disk).2 = fs st2).
Proof.
  intros Hfin.
  destruct (run_finished P disk Hfin) as (st' & Hrun & Hh & Hf & Hl).
  pose proof (program_ok P disk st' Hrun)
    as (Hi & st1 & st2 & Hmk & Hicons & ->).
  split; [done|]. split.
  - rewrite Hl. destruct (program_log P disk Hi) as [_ Hlog].
    rewrite Hrun in Hlog. by apply Hlog.
  - exists st1, st2. by rewrite Hh, Hf.
Qed.

(** A complete run printed all its lines. *)
Lemma finished_printed P disk :
  (run P disk).1 = Finished →
  (∀ size, size ∈ SIZES →
     print_error P ("Created " +:+ output_path size) = None) ∧
  report_result P = Ok tt.
Proof.
  intros Hfin.
  destruct (finished_run P disk Hfin) as (_ & _ & st1 & st2 & _ & Hicons & _).
  split; [by eapply icons_ok_printed|].
  apply (program_ok_printed P disk).
  destruct (run_finished P disk Hfin) as (st' & -> & _). done.
Qed.

Lemma finished_artwork P disk size :
  (run P disk).1 = Finished → size ∈ SIZES →
  ∃ drawn, artwork P size = Ok drawn ∧
           write_error P (output_path size) = None ∧
           fs (run P disk).2 !! output_path size =
             Some (File (png_encode P drawn)) ∧
           fs (run P disk).2 !! OUTPUT_DIR = Some Dir.
Proof.
  intros Hfin Hsize.
  destruct (finished_run P disk Hfin)
    as (_ & _ & st1 & st2 & _ & Hicons & _ & ->).
  destruct st1 as [g h f l].
  destruct (icons_ok P SIZES g h f l st2 (λ s H, H) (NoDup_SIZES) Hicons)
    as (_ & _ & Hfiles & _).
  by apply Hfiles.
Qed.

Lemma finished_stdout P disk :
  (run P disk).1 = Finished → stdout (run P disk).2 = success_output.
Proof.
  intros Hfin. unfold stdout.
  destruct (finished_run P disk Hfin) as (_ & -> & _).
  assert (∀ size, size ∈ SIZES →
            ∃ box, measure P (0, 0) "R" (picked_font P size) = Ok box)
    as Hm.
  { intros size Hsize.
    destruct (finished_artwork P disk size Hfin Hsize) as (drawn & Ha & _).
    destruct (artwork_measured P size drawn Ha) as (box & ? & _).
    by exists box. }
  destruct (Hm 16) as [b16 H16]; [in_sizes|].
  destruct (Hm 48) as [b48 H48]; [in_sizes|].
  destruct (Hm 128) as [b128 H128]; [in_sizes|].
  destruct (finished_printed P disk Hfin) as [Hpr Hreport].
  apply report_result_Ok in Hreport as (_ & _ & _ & Hreport).
  unfold full_log, SIZES, icons_log, icon_log, printed.
  rewrite H16, H48, H128, Hreport.
  rewrite (Hpr 16), (Hpr 48), (Hpr 128) by in_sizes.
  rewrite !stdout_of_app, !stdout_of_font_events. reflexivity.
Qed.

(** ** The font *)

(** C3.  For every size, the font is chosen without an exception leaving
    the [try] statement, without a line printed and without a change to the
    disk or the heap.  [ImageFont.truetype] is asked first, for Helvetica at
    [int(size * 0.6)] (three fifths of the size, rounded down, for every size
    up to 4096); when it raises, whatever the exception, [font] is the
    built-in default font instead.  So on a platform where nothing but the
    font can fail, the run completes for all three sizes and prints exactly
    what a run with Helvetica prints. *)
Theorem font_fallback P st size :
  globals st !! "size" = Some (VInt size) →
  (choose_font P st).1 = Ok tt ∧
  stdout (choose_font P st).2 = stdout st ∧
  fs (choose_font P st).2 = fs st ∧
  heap (choose_font P st).2 = heap st ∧
  (∀ n, scaled_font_size size = Ok n →
        truetype_error P helvetica n = None →
        globals (choose_font P st).2 !! "font" =
          Some (VFont (FreeTypeFont helvetica n)) ∧
        log (choose_font P st).2 = log st ++ [EvTruetype helvetica n]) ∧
  (∀ n e, scaled_font_size size = Ok n →
          truetype_error P helvetica n = Some e →
          globals (choose_font P st).2 !! "font" = Some (VFont DefaultFont) ∧
          log (choose_font P st).2 =
            log st ++ [EvTruetype helvetica n; EvLoadDefault]) ∧
  (∀ e, scaled_font_size size = Raise e →
        globals (choose_font P st).2 !! "font" = Some (VFont DefaultFont) ∧
        log (choose_font P st).2 = log st ++ [EvLoadDefault]) ∧
  (0 ≤ size ≤ 4096 → scaled_font_size size = Ok ((3 * size) `div` 5)) ∧
  (∀ disk, cooperative P disk →
           (run P disk).1 = Finished ∧
           stdout (run P disk).2 = success_output).
Proof.
  intros Hs. destruct st as [g h f l]. cbn [globals] in Hs.
  rewrite (choose_font_run P g h f l size Hs). cbn [fst snd].
  split; [done|]. split; [|split; [|split]].
  - unfold stdout.
    destruct (scaled_font_size size) as [n|e];
      [destruct (truetype_error P helvetica n)|];
      cbn [log]; by rewrite stdout_of_app, append_empty_r.
  - by destruct (scaled_font_size size) as [n|e];
      [destruct (truetype_error P helvetica n)|].
  - by destruct (scaled_font_size size) as [n|e];
      [destruct (truetype_error P helvetica n)|].
  - split; [|split; [|split; [|split]]].
    + intros n -> ->. cbn [globals log]. by rewrite lookup_insert_eq.
    + intros n e -> ->. cbn [globals log]. by rewrite lookup_insert_eq.
    + intros e ->. cbn [globals log]. by rewrite lookup_insert_eq.
    + apply scaled_font_size_small.
    + intros disk Hc. split; [by apply run_succeeds|].
      by apply finished_stdout, run_succeeds.
Qed.

Lemma font_fallback_witness :
  (choose_font linux (easel 16)).1 = Ok tt ∧
  stdout (choose_font linux (easel 16)).2 = stdout (easel 16) ∧
  (globals (choose_font linux (easel 16)).2 !! "font" =
     Some (VFont DefaultFont) ∧
   log (choose_font linux (easel 16)).2 =
     log (easel 16) ++ [EvTruetype helvetica 9; EvLoadDefault]) ∧
  scaled_font_size 16 = Ok ((3 * 16) `div` 5) ∧
  ((run linux ∅).1 = Finished ∧ stdout (run linux ∅).2 = success_output).
Proof.
  pose proof (font_fallback linux (easel 16) 16 eq_refl)
    as (H1 & H2 & _ & _ & _ & H3 & _ & H4 & H5).
  split; [exact H1|]. split; [exact H2|].
  split; [exact (H3 9 OSError eq_refl eq_refl)|].
  split; [apply H4; lia|]. exact (H5 ∅ linux_cooperative).
Defined.

Lemma render_icon_split P st :
  render_icon P st = (until_measured P ;; draw_glyph P ;; save_icon P) st.
Proof.
  unfold render_icon, until_measured, bind.
  destruct (new_canvas st) as [[[]|e] st1]; [|done].
  destruct (choose_font P st1) as [[[]|e] st2]; [|done].
  by destruct (measure_text P st2) as [[[]|e] st3].
Qed.

Lemma until_measured_fallback P g h f l size n e :
  g !! "BG_COLOR" = Some (tuple3 BG_COLOR) →
  g !! "size" = Some (VInt size) →
  0 ≤ size →
  scaled_font_size size = Ok n →
  truetype_error P helvetica n = Some e →
  until_measured P (mkState g h f l) =
    let g1 := <["font" := VFont DefaultFont]>
                (<["font_size" := VInt n]>
                   (<["draw" := VDraw (length h)]>
                      (<["img" := VImage (length h)]> g))) in
    let h1 := h ++ [blank_image "RGB" size size BG_COLOR] in
    let l1 := l ++ [EvImageNew "RGB" (size, size) BG_COLOR;
                    EvImageDraw (length h);
                    EvTruetype helvetica n; EvLoadDefault;
                    EvTextbbox (0, 0) "R" DefaultFont] in
    match measure P (0, 0) "R" DefaultFont with
    | Ok (x0, y0, x1, y1) =>
        (Ok tt,
         mkState (<["text_height" := VInt (y1 - y0)]>
                    (<["text_width" := VInt (x1 - x0)]>
                       (<["bbox" := VTuple [x0; y0; x1; y1]]>
                          (<["text" := VStr "R"]> g1)))) h1 f l1)
    | Raise e' => (Raise e', mkState (<["text" := VStr "R"]> g1) h1 f l1)
    end.
Proof.
  intros Hb Hs Hpos Hn He. unfold until_measured. crank.
  rewrite (new_canvas_run g h f l size) by done.
  assert ((size <? 0) = false) as -> by lia.
  rewrite (choose_font_run P _ _ _ _ size) by (look; known; reflexivity).
  rewrite Hn, He.
  erewrite measure_text_run by (look; known; reflexivity).
  destruct (measure P _ _ _) as [[[[x0 y0] x1] y1]|e'];
    repeat rewrite <- app_assoc; reflexivity.
Qed.

(** C10.  Take two iterations, of sizes [size1] and [size2], in both of
    which Helvetica fails to load.  The sizes computed for it, [n1] and [n2],
    end in [font_size] and were passed to [ImageFont.truetype] only:
    [ImageFont.load_default()] is called without a size, [font] is the same
    built-in font in both, the glyph is measured with that font, and either
    the measurement fails in both or the box, the width and the height of
    the glyph are the same in both.  *)
Theorem fallback_size_fixed P st1 st2 size1 size2 n1 n2 e1 e2 :
  configured st1 → configured st2 →
  globals st1 !! "size" = Some (VInt size1) →
  globals st2 !! "size" = Some (VInt size2) →
  0 ≤ size1 → 0 ≤ size2 →
  scaled_font_size size1 = Ok n1 → scaled_font_size size2 = Ok n2 →
  truetype_error P helvetica n1 = Some e1 →
  truetype_error P helvetica n2 = Some e2 →
  globals (until_measured P st1).2 !! "font_size" = Some (VInt n1) ∧
  globals (until_measured P st2).2 !! "font_size" = Some (VInt n2) ∧
  globals (until_measured P st1).2 !! "font" = Some (VFont DefaultFont) ∧
  globals (until_measured P st2).2 !! "font" = Some (VFont DefaultFont) ∧
  log (until_measured P st1).2 =
    log st1 ++ [EvImageNew "RGB" (size1, size1) BG_COLOR;
                EvImageDraw (length (heap st1));
                EvTruetype helvetica n1; EvLoadDefault;
                EvTextbbox (0, 0) "R" DefaultFont] ∧
  log (until_measured P st2).2 =
    log st2 ++ [EvImageNew "RGB" (size2, size2) BG_COLOR;
                EvImageDraw (length (heap st2));
                EvTruetype helvetica n2; EvLoadDefault;
                EvTextbbox (0, 0) "R" DefaultFont] ∧
  (until_measured P st1).1 = (until_measured P st2).1 ∧
  ((until_measured P st1).1 = Ok tt →
   ∃ x0 y0 x1 y1,
     measure P (0, 0) "R" DefaultFont = Ok (x0, y0, x1, y1) ∧
     globals (until_measured P st1).2 !! "bbox" =
       Some (VTuple [x0; y0; x1; y1]) ∧
     globals (until_measured P st2).2 !! "bbox" =
       Some (VTuple [x0; y0; x1; y1]) ∧
     globals (until_measured P st1).2 !! "text_width" =
       Some (VInt (x1 - x0)) ∧
     globals (until_measured P st2).2 !! "text_width" =
       Some (VInt (x1 - x0)) ∧
     globals (until_measured P st1).2 !! "text_height" =
       Some (VInt (y1 - y0)) ∧
     globals (until_measured P st2).2 !! "text_height" =
       Some (VInt (y1 - y0))).
Proof.
  intros (_ & _ & Hb1 & _) (_ & _ & Hb2 & _) Hs1 Hs2 Hp1 Hp2 Hn1 Hn2 He1 He2.
  destruct st1 as [g1 h1 f1 l1], st2 as [g2 h2 f2 l2]. cbn [globals] in *.
  rewrite (until_measured_fallback P g1 h1 f1 l1 size1 n1 e1) by done.
  rewrite (until_measured_fallback P g2 h2 f2 l2 size2 n2 e2) by done.
  cbv zeta.
  destruct (measure P (0, 0) "R" DefaultFont) as [[[[x0 y0] x1] y1]|e];
    cbn [fst snd globals log]; look; repeat (split; [reflexivity|]).
  - intros _. exists x0, y0, x1, y1. done.
  - done.
Qed.

Lemma fallback_size_fixed_witness :
  globals (until_measured linux (easel 16)).2 !! "font_size" =
    Some (VInt 9) ∧
  globals (until_measured linux (easel 128)).2 !! "font_size" =
    Some (VInt 76) ∧
  globals (until_measured linux (easel 16)).2 !! "font" =
    Some (VFont DefaultFont) ∧
  globals (until_measured linux (easel 128)).2 !! "font" =
    Some (VFont DefaultFont) ∧
  (until_measured linux (easel 16)).1 = Ok tt ∧
  globals (until_measured linux (easel 16)).2 !! "text_width" =
    globals (until_measured linux (easel 128)).2 !! "text_width" ∧
  globals (until_measured linux (easel 16)).2 !! "text_height" =
    globals (until_measured linux (easel 128)).2 !! "text_height".
Proof.
  destruct (fallback_size_fixed linux (easel 16) (easel 128) 16 128 9 76
              OSError OSError (configured_easel 16) (configured_easel 128)
              eq_refl eq_refl ltac:(lia) ltac:(lia)
              eq_refl eq_refl eq_refl eq_refl)
    as (H1 & H2 & H3 & H4 & _ & _ & _ & H5).
  repeat (split; [assumption|]).
  assert ((until_measured linux (easel 16)).1 = Ok tt) as Hok
    by (vm_compute; reflexivity).
  split; [exact Hok|].
  destruct (H5 Hok) as (x0 & y0 & x1 & y1 & _ & _ & _ & -> & -> & -> & ->).
  split; reflexivity.
Defined.

(** ** The canvases *)

Lemma prefix_filter {A} (Q : A → Prop) `{∀ x, Decision (Q x)} (l1 l2 : list A) :
  l1 `prefix_of` l2 → filter Q l1 `prefix_of` filter Q l2.
Proof. intros [k ->]. rewrite filter_app. by apply prefix_app_r. Qed.

Lemma filter_font_events_new P size :
  filter (λ ev, is_image_new ev = true) (font_events P size) = [].
Proof. unfold font_events. by repeat case_match. Qed.

Lemma filter_icon_log_new P size obj :
  filter (λ ev, is_image_new ev = true) (icon_log P size obj) =
    [EvImageNew "RGB" (size, size) BG_COLOR].
Proof.
  unfold icon_log, printed. cbv zeta.
  rewrite !filter_app, filter_font_events_new.
  destruct (measure P _ _ _); [|done]. by destruct (print_error P _).
Qed.

Lemma filter_icons_log_new P sizes obj :
  filter (λ ev, is_image_new ev = true) (icons_log P sizes obj) =
    (λ size, EvImageNew "RGB" (size, size) BG_COLOR) <$> sizes.
Proof.
  revert obj. induction sizes as [|size sizes IH]; intros obj; [done|].
  cbn [icons_log fmap list_fmap].
  by rewrite filter_app, filter_icon_log_new, IH.
Qed.

Lemma elem_of_icon_log_draw P size obj o canvas xy text fill font :
  EvDrawText o canvas xy text fill font ∈ icon_log P size obj →
  ∃ box,
    measure P (0, 0) "R" (picked_font P size) = Ok box ∧
    o = obj ∧ canvas = blank_image "RGB" size size BG_COLOR ∧
    xy = centered size box ∧ text = "R" ∧ fill = TEXT_COLOR ∧
    font = picked_font P size.
Proof.
  unfold icon_log, printed. cbv zeta. rewrite !elem_of_app.
  intros [Hin|[Hin|[Hin|Hin]]].
  - repeat (apply elem_of_cons in Hin as [Hin|Hin]; [done|]).
    by apply elem_of_nil in Hin.
  - unfold font_events in Hin. repeat case_match;
      repeat (apply elem_of_cons in Hin as [Hin|Hin]; [done|]);
      by apply elem_of_nil in Hin.
  - apply list_elem_of_singleton in Hin. done.
  - destruct (measure P _ _ _) as [box|e]; [|by apply elem_of_nil in Hin].
    exists box. split; [done|].
    destruct (print_error P _);
      repeat (apply elem_of_cons in Hin as [Hin|Hin]; [by simplify_eq|]);
      by apply elem_of_nil in Hin.
Qed.

Lemma elem_of_icons_log_draw P sizes obj o canvas xy text fill font :
  EvDrawText o canvas xy text fill font ∈ icons_log P sizes obj →
  ∃ i size box,
    sizes !! i = Some size ∧ o = (obj + i)%nat ∧
    measure P (0, 0) "R" (picked_font P size) = Ok box ∧
    canvas = blank_image "RGB" size size BG_COLOR ∧
    xy = centered size box ∧ text = "R" ∧ fill = TEXT_COLOR ∧
    font = picked_font P size.
Proof.
  revert obj. induction sizes as [|size sizes IH]; intros obj Hin.
  { by apply elem_of_nil in Hin. }
  cbn [icons_log] in Hin. apply elem_of_app in Hin as [Hin|Hin].
  - apply elem_of_icon_log_draw in Hin as (box & ? & -> & ?).
    exists 0%nat, size, box. rewrite Nat.add_0_r. done.
  - apply IH in Hin as (i & s & box & ? & -> & ?).
    exists (S i), s, box. split; [done|]. split; [lia | done].
Qed.

Lemma printed_cases P line :
  printed P line = EvPrint line ∨ printed P line = EvPrintRefused line.
Proof. unfold printed. destruct (print_error P line); auto. Qed.

Lemma not_printed_draw P line obj canvas xy text fill font :
  EvDrawText obj canvas xy text fill font ≠ printed P line.
Proof. by destruct (printed_cases P line) as [-> | ->]. Qed.

Lemma elem_of_report_log P ev :
  ev ∈ report_log P → ∃ line, ev = printed P line.
Proof.
  unfold report_log. intros Hin.
  repeat (apply elem_of_cons in Hin as [Hin|Hin]; [by eexists|]).
  by apply elem_of_nil in Hin.
Qed.

Lemma filter_report_log_new P :
  filter (λ ev, is_image_new ev = true) (report_log P) = [].
Proof.
  unfold report_log, printed. by repeat destruct (print_error P _).
Qed.

Lemma filter_prints_new P line (l : list event) :
  (∀ ev, ev ∈ l → ev = printed P line) →
  filter (λ ev, is_image_new ev = true) l = [].
Proof.
  induction l as [|ev l IH]; intros Hl; [done|]. rewrite filter_cons.
  pose proof (Hl ev ltac:(left)) as Hev.
  assert (is_image_new ev = false) as Hnot
    by (destruct (printed_cases P line) as [E|E]; by rewrite Hev, E).
  rewrite decide_False by (by rewrite Hnot).
  apply IH. intros ev' H'. apply Hl. by right.
Qed.

(** What a run logs, with Pillow or without. *)
Lemma run_log P disk :
  log (run P disk).2 `prefix_of` full_log P ∨
  (∀ ev, ev ∈ log (run P disk).2 →
         ev = printed P "Pillow not installed. Run: pip install Pillow").
Proof.
  rewrite run_snd. destruct (import_error P) as [e|] eqn:Hi.
  - right. unfold main, bind. rewrite imports_run, Hi.
    destruct (isinstance_ImportError e).
    + destruct (print_error P _); cbn [snd log initial emit app];
        by intros ev ->%list_elem_of_singleton.
    + intros ev Hev. by apply elem_of_nil in Hev.
  - left. destruct (main_effects P disk) as (_ & _ & _ & ->).
    by apply program_log.
Qed.

Lemma pixel_blank_image mode w h color x y :
  (x < Z.to_nat w)%nat → (y < Z.to_nat h)%nat →
  pixel (blank_image mode w h color) x y = Some color.
Proof.
  intros Hx Hy. unfold pixel, blank_image. cbn [im_rows].
  rewrite (lookup_replicate_2 _ _ y) by done. simpl.
  by rewrite lookup_replicate_2.
Qed.

(** C4.  The calls to [Image.new] of a run are, in this order, those for
    16, 48 and 128 (the first of them, when the run stops early), each for
    an RGB image of that size on both sides and the background colour; a
    call allocates an object that was not on the heap and fills all of
    its pixels with the colour; and the canvas given to a drawing call is
    the [obj]-th size's blank canvas, on the object made for that size. *)
Theorem fresh_canvas P disk :
  filter (λ ev, is_image_new ev = true) (log (run P disk).2)
    `prefix_of` [EvImageNew "RGB" (16, 16) (102, 126, 234);
                 EvImageNew "RGB" (48, 48) (102, 126, 234);
                 EvImageNew "RGB" (128, 128) (102, 126, 234)] ∧
  ((run P disk).1 = Finished →
   filter (λ ev, is_image_new ev = true) (log (run P disk).2) =
     [EvImageNew "RGB" (16, 16) (102, 126, 234);
      EvImageNew "RGB" (48, 48) (102, 126, 234);
      EvImageNew "RGB" (128, 128) (102, 126, 234)]) ∧
  (∀ obj canvas xy text fill font,
     EvDrawText obj canvas xy text fill font ∈ log (run P disk).2 →
     ∃ size, SIZES !! obj = Some size ∧
             canvas = blank_image "RGB" size size (102, 126, 234)) ∧
  (∀ size x y,
     (x < Z.to_nat size)%nat → (y < Z.to_nat size)%nat →
     im_mode (blank_image "RGB" size size (102, 126, 234)) = "RGB" ∧
     im_size (blank_image "RGB" size size (102, 126, 234)) = (size, size) ∧
     pixel (blank_image "RGB" size size (102, 126, 234)) x y =
       Some (102, 126, 234)) ∧
  (∀ mode size color st im st',
     Image_new mode size color st = (Ok im, st') →
     heap st !! im = None ∧
     heap st' = heap st ++ [blank_image mode size.1 size.2 color]).
Proof.
  assert (filter (λ ev, is_image_new ev = true) (full_log P) =
            [EvImageNew "RGB" (16, 16) (102, 126, 234);
             EvImageNew "RGB" (48, 48) (102, 126, 234);
             EvImageNew "RGB" (128, 128) (102, 126, 234)]) as Hfull.
  { unfold full_log.
    by rewrite !filter_app, filter_icons_log_new, filter_report_log_new. }
  split; [|split; [|split; [|split]]].
  - destruct (run_log P disk) as [Hpre|Hprints].
    + rewrite <- Hfull. by apply prefix_filter.
    + rewrite (filter_prints_new P _ _ Hprints). apply prefix_nil.
  - intros Hfin. by destruct (finished_run P disk Hfin) as (_ & -> & _).
  - intros obj canvas xy text fill font Hin.
    destruct (run_log P disk) as [Hpre|Hprints];
      [|by destruct (not_printed_draw _ _ _ _ _ _ _ _ (Hprints _ Hin))].
    apply (elem_of_prefix _ _ _ Hin) in Hpre. unfold full_log in Hpre.
    rewrite !elem_of_app in Hpre. destruct Hpre as [Hpre|[Hpre|Hpre]].
    + by apply list_elem_of_singleton in Hpre.
    + apply elem_of_icons_log_draw
        in Hpre as (i & size & box & ? & -> & _ & -> & _).
      by exists size.
    + apply elem_of_report_log in Hpre as [line Hpre].
      by destruct (not_printed_draw _ _ _ _ _ _ _ _ Hpre).
  - intros size x y Hx Hy. repeat split. by apply pixel_blank_image.
  - intros mode size color st im st'. unfold Image_new, bind, tell.
    destruct (_ || _); [done|]. intros [= <- <-]. cbn [heap emit set_heap].
    split; [|done]. apply lookup_ge_None_2. lia.
Qed.

Lemma fresh_canvas_witness :
  filter (λ ev, is_image_new ev = true) (log (run macos ∅).2) =
    [EvImageNew "RGB" (16, 16) (102, 126, 234);
     EvImageNew "RGB" (48, 48) (102, 126, 234);
     EvImageNew "RGB" (128, 128) (102, 126, 234)] ∧
  (∃ size, SIZES !! 1%nat = Some size ∧
           blank_image "RGB" 48 48 (102, 126, 234) =
             blank_image "RGB" size size (102, 126, 234)) ∧
  pixel (blank_image "RGB" 16 16 (102, 126, 234)) 15 15 =
    Some (102, 126, 234).
Proof.
  destruct (fresh_canvas macos ∅) as (_ & H1 & H2 & H3 & _).
  split; [apply H1; vm_compute; reflexivity|]. split.
  - apply (H2 1%nat _ (15, 6) "R" (255, 255, 255)
             (FreeTypeFont helvetica 28)).
    apply (list_elem_of_lookup_2 _ 12). vm_compute. reflexivity.
  - apply H3; vm_compute; lia.
Defined.

(** ** The console *)

Lemma icons_log_save_print P sizes obj i size :
  sizes !! i = Some size →
  (∃ box, measure P (0, 0) "R" (picked_font P size) = Ok box) →
  print_error P ("Created " +:+ output_path size) = None →
  ∃ l1 l2,
    icons_log P sizes obj =
      l1 ++ [EvSave (obj + i) (output_path size) "PNG";
             EvPrint ("Created " +:+ output_path size)] ++ l2.
Proof.
  revert obj i. induction sizes as [|s sizes IH]; intros obj i Hi Hm Hpr;
    [done|].
  destruct i as [|i]; cbn [icons_log].
  - injection Hi as ->. destruct Hm as [box Hm].
    unfold icon_log, printed. cbv zeta.
    rewrite Hm, Hpr, Nat.add_0_r.
    exists ([EvImageNew "RGB" (size, size) BG_COLOR; EvImageDraw obj] ++
            font_events P size ++
            [EvTextbbox (0, 0) "R" (picked_font P size);
             EvDrawText obj (blank_image "RGB" size size BG_COLOR)
               (centered size box) "R" TEXT_COLOR (picked_font P size)]),
      (icons_log P sizes (S obj)).
    repeat rewrite <- app_assoc. reflexivity.
  - destruct (IH (S obj) i Hi Hm Hpr) as (l1 & l2 & ->).
    exists (icon_log P s obj ++ l1), l2.
    rewrite <- app_assoc. by replace (S obj + i)%nat with (obj + S i)%nat by lia.
Qed.

Lemma console_output_log P disk i size :
  (run P disk).1 = Finished → SIZES !! i = Some size →
  ∃ l1 l2,
    log (run P disk).2 =
      l1 ++ [EvSave i (output_path size) "PNG";
             EvPrint ("Created " +:+ output_path size)] ++ l2.
Proof.
  intros Hfin Hi.
  destruct (finished_run P disk Hfin) as (_ & -> & _).
  assert (size ∈ SIZES) as Hsize by by eapply list_elem_of_lookup_2.
  destruct (finished_artwork P disk size Hfin Hsize) as (drawn & Ha & _).
  destruct (artwork_measured P size drawn Ha) as (box & Hm & _).
  destruct (finished_printed P disk Hfin) as [Hpr _].
  destruct (icons_log_save_print P SIZES 0 i size Hi ltac:(by exists box)
              (Hpr size Hsize))
    as (l1 & l2 & E).
  unfold full_log. rewrite E.
  exists ([EvMakedirs OUTPUT_DIR true] ++ l1), (l2 ++ report_log P).
  repeat rewrite <- app_assoc. reflexivity.
Qed.

(** C7, as first stated: after the three [Created] lines the console would
    show a message of two lines and nothing else.  The first of the closing
    [print]s starts with a newline, so a blank line comes between. *)
Lemma two_line_message_counterexample :
  ¬ ∃ line1 line2,
      lines (stdout (run macos ∅).2) =
        ["Created assets/icons/icon16.png";
         "Created assets/icons/icon48.png";
         "Created assets/icons/icon128.png";
         line1; line2].
Proof.
  intros (line1 & line2 & H). vm_compute in H. discriminate H.
Qed.

(** C7 (amended).  A run that completes prints, in this order and nothing
    else: [Created <path>] for 16, for 48 and for 128, each at once after
    the [save] of that path; an empty line; and the two lines of the closing
    message. *)
Theorem console_output P disk :
  (run P disk).1 = Finished →
  stdout (run P disk).2 = success_output ∧
  lines (stdout (run P disk).2) =
    ["Created assets/icons/icon16.png";
     "Created assets/icons/icon48.png";
     "Created assets/icons/icon128.png";
     "";
     "Icons created successfully!";
     "You can now load the extension in Chrome."] ∧
  (∀ i size, SIZES !! i = Some size →
     ∃ l1 l2,
       log (run P disk).2 =
         l1 ++ [EvSave i (output_path size) "PNG";
                EvPrint ("Created " +:+ output_path size)] ++ l2).
Proof.
  intros Hfin. rewrite (finished_stdout P disk Hfin).
  split; [done|]. split; [by vm_compute|].
  intros i size Hi. by apply console_output_log.
Qed.

Lemma console_output_witness :
  stdout (run macos ∅).2 = success_output ∧
  lines (stdout (run macos ∅).2) =
    ["Created assets/icons/icon16.png";
     "Created assets/icons/icon48.png";
     "Created assets/icons/icon128.png";
     "";
     "Icons created successfully!";
     "You can now load the extension in Chrome."] ∧
  (∃ l1 l2,
     log (run macos ∅).2 =
       l1 ++ [EvSave 2 (output_path 128) "PNG";
              EvPrint ("Created " +:+ output_path 128)] ++ l2).
Proof.
  destruct (console_output macos ∅) as (H1 & H2 & H3).
  - vm_compute. reflexivity.
  - split; [exact H1|]. split; [exact H2|]. apply (H3 2%nat 128).
    reflexivity.
Defined.

(** ** When every operation succeeds *)

Lemma run_all_succeed P disk :
  import_error P = None → all_succeed P disk → (run P disk).1 = Finished.
Proof.
  intros Hi (Hmk & Hsizes & Hclosing). rewrite run_fst.
  destruct (main_effects P disk) as (-> & _).
  rewrite program_run by done. unfold initial in *.
  destruct (os_makedirs_frame P ∅ [] disk []) as (r & f' & E & Hfr & _ & Hd).
  rewrite E in Hmk |- *. cbn [fst] in Hmk. subst r.
  pose proof (icons_succeed P SIZES ∅ [] f'
                ([] ++ [EvMakedirs OUTPUT_DIR true]) (λ s H, H)) as Hok.
  destruct (icons P SIZES _) as [[[]|e] st2].
  - rewrite report_run. cbn [fst].
    rewrite report_result_accepted; [done| |];
      apply Hclosing; unfold CLOSING; [left | right; left].
  - exfalso. enough (Raise e = Ok tt) by done. apply Hok.
    + intros s Hs. destruct (Hsizes s Hs) as ([drawn Ha] & _ & Hw & _).
      by exists drawn.
    + intros s Hs. destruct (Hsizes s Hs) as (_ & _ & _ & Hp). exact Hp.
    + split; [by apply Hd|]. intros s Hs.
      destruct (Hsizes s Hs) as (_ & Hnd & _).
      destruct (output_path_facts s Hs) as (_ & _ & ? & ?).
      rewrite Hfr by done. by destruct (disk !! output_path s) as [[]|].
Qed.

(** ** The import guard and the exit status *)





(** ** The output directory *)

Lemma main_startup P st :
  main P st = (startup P ;; render_all P ;; report P) st.
Proof.
  unfold main, startup, bind.
  destruct (imports P st) as [[[]|e] st1]; [|done].
  destruct (configure st1) as [[[]|e] st2]; [|done].
  by destruct (ensure_output_dir P st2) as [[[]|e] st3].
Qed.

Lemma startup_run P disk :
  import_error P = None →
  startup P (initial disk) =
    ((os_makedirs P OUTPUT_DIR true (initial disk)).1,
     set_globals configuration
       (os_makedirs P OUTPUT_DIR true (initial disk)).2).
Proof.
  intros Hi. unfold startup, bind. rewrite imports_run, Hi.
  unfold configure, ensure_output_dir, initial. exec.
  match goal with
  | |- context [os_makedirs P ?d ?b (mkState ?g' [] disk [])] =>
      change (mkState g' [] disk [])
        with (set_globals g' (mkState ∅ [] disk []));
      rewrite (blind_os_makedirs P d b)
  end.
  by destruct (os_makedirs P OUTPUT_DIR true _) as [[[]|e] st1].
Qed.

(** C6.  With Pillow, the first thing the run asks of the outside is
    [os.makedirs("assets/icons", exist_ok=True)], when no image exists yet;
    if that raises, the run ends with the exception.  When it returns, the
    directory is there, every entry the disk had is still there, and
    nothing but the directory and its parent can be new.  A missing
    directory is made, with its parent when that is missing too and the
    system allows it; a directory that is there makes no error and the disk
    stays as it is. *)
Theorem output_dir_prepared P disk :
  import_error P = None →
  log (startup P (initial disk)).2 = [EvMakedirs OUTPUT_DIR true] ∧
  heap (startup P (initial disk)).2 = [] ∧
  (∃ rest, log (run P disk).2 = EvMakedirs OUTPUT_DIR true :: rest) ∧
  (∀ e, (startup P (initial disk)).1 = Raise e →
        main P (initial disk) = (Raise e, (startup P (initial disk)).2)) ∧
  ((startup P (initial disk)).1 = Ok tt →
   fs (startup P (initial disk)).2 !! OUTPUT_DIR = Some Dir) ∧
  (∀ p n, disk !! p = Some n →
          fs (startup P (initial disk)).2 !! p = Some n) ∧
  (∀ p, p ≠ "assets" → p ≠ OUTPUT_DIR →
        fs (startup P (initial disk)).2 !! p = disk !! p) ∧
  (disk !! "assets" = None → disk !! OUTPUT_DIR = None →
   mkdir_error P "assets" = None → mkdir_error P OUTPUT_DIR = None →
   (startup P (initial disk)).1 = Ok tt ∧
   fs (startup P (initial disk)).2 =
     <[OUTPUT_DIR := Dir]> (<["assets" := Dir]> disk)) ∧
  (disk !! "assets" = Some Dir → disk !! OUTPUT_DIR = None →
   mkdir_error P OUTPUT_DIR = None →
   (startup P (initial disk)).1 = Ok tt ∧
   fs (startup P (initial disk)).2 = <[OUTPUT_DIR := Dir]> disk) ∧
  (disk !! OUTPUT_DIR = Some Dir → present (disk !! "assets") = true →
   (startup P (initial disk)).1 = Ok tt ∧
   fs (startup P (initial disk)).2 = disk).
Proof.
  intros Hi.
  assert (∃ rest, log (run P disk).2 = EvMakedirs OUTPUT_DIR true :: rest)
    as Hfirst.
  { rewrite run_snd. destruct (main_effects P disk) as (_ & _ & _ & ->).
    rewrite program_run by done. unfold initial.
    destruct (os_makedirs_frame P ∅ [] disk []) as (r & f' & -> & _).
    destruct r as [[]|e]; [|by exists []].
    destruct (icons_log_prefix P SIZES ∅ [] f' [EvMakedirs OUTPUT_DIR true])
      as (evs & Hlog & _).
    destruct (icons P SIZES _) as [[[]|e] st2]; cbn [snd] in *.
    - rewrite report_run. cbn [snd log]. rewrite Hlog.
      exists (evs ++ report_said P). by rewrite <- app_assoc.
    - rewrite Hlog. by exists evs. }
  rewrite main_startup. unfold bind at 1.
  rewrite startup_run by done. unfold initial.
  destruct (os_makedirs_frame P ∅ [] disk [])
    as (r & f' & E & Hframe & Hkeep & Hdir).
  rewrite E. cbn [fst snd set_globals heap fs log app].
  split; [done|]. split; [done|]. split; [done|].
  split; [by intros e ->|]. split; [done|]. split; [done|]. split; [done|].
  split; [|split].
  - intros Ha Hb Hma Hmb.
    rewrite (os_makedirs_creates_both P ∅ [] disk []) in E by done.
    by simplify_eq.
  - intros Ha Hb Hmb.
    rewrite (os_makedirs_creates_leaf P ∅ [] disk []) in E by done.
    by simplify_eq.
  - intros Hb Ha.
    rewrite (os_makedirs_exists P ∅ [] disk []) in E by done.
    by simplify_eq.
Qed.

Lemma output_dir_prepared_witness :
  log (startup macos (initial ∅)).2 = [EvMakedirs OUTPUT_DIR true] ∧
  heap (startup macos (initial ∅)).2 = [] ∧
  ((startup macos (initial ∅)).1 = Ok tt ∧
   fs (startup macos (initial ∅)).2 =
     <[OUTPUT_DIR := Dir]> (<["assets" := Dir]> ∅)) ∧
  ((startup macos (initial (<[OUTPUT_DIR := Dir]> (<["assets" := Dir]> ∅)))).1
     = Ok tt ∧
   fs (startup macos
         (initial (<[OUTPUT_DIR := Dir]> (<["assets" := Dir]> ∅)))).2 =
     <[OUTPUT_DIR := Dir]> (<["assets" := Dir]> ∅)) ∧
  main readonly (initial ∅) =
    (Raise PermissionError, (startup readonly (initial ∅)).2).
Proof.
  destruct (output_dir_prepared macos ∅ eq_refl)
    as (H1 & H2 & _ & _ & _ & _ & _ & H3 & _).
  destruct (output_dir_prepared macos
              (<[OUTPUT_DIR := Dir]> (<["assets" := Dir]> ∅)) eq_refl)
    as (_ & _ & _ & _ & _ & _ & _ & _ & _ & H4).
  destruct (output_dir_prepared readonly ∅ eq_refl)
    as (_ & _ & _ & H5 & _).
  split; [exact H1|]. split; [exact H2|].
  split; [exact (H3 eq_refl eq_refl eq_refl eq_refl)|].
  split; [exact (H4 eq_refl eq_refl)|].
  exact (H5 PermissionError eq_refl).
Defined.

(** ** The files *)

Lemma termination_of_Ok r : r = Ok tt → termination_of r = Finished.
Proof. by intros ->. Qed.

(** A run that completed completes again on the disk it left, and leaves
    that disk as it is. *)
Lemma rerun P disk :
  (run P disk).1 = Finished →
  (run P (fs (run P disk).2)).1 = Finished ∧
  fs (run P (fs (run P disk).2)).2 = fs (run P disk).2.
Proof.
  intros Hfin.
  destruct (finished_printed P disk Hfin) as [Hpr Hreport].
  destruct (finished_run P disk Hfin)
    as (Hi & _ & st1 & st2 & Hmk & Hicons & _ & Hfs).
  set (f' := fs (run P disk).2) in *.
  destruct st1 as [g1 h1 f1 l1].
  destruct (icons_ok P SIZES g1 h1 f1 l1 st2 (λ s H, H) NoDup_SIZES Hicons)
    as (_ & _ & Hfiles & Hframe).
  assert (∀ p, (∀ s, s ∈ SIZES → p ≠ output_path s) → f' !! p = f1 !! p)
    as Hframe' by (intros p Hp; rewrite Hfs; by apply Hframe).
  assert (os_makedirs P OUTPUT_DIR true (initial f') =
            (Ok tt, mkState ∅ [] f' [EvMakedirs OUTPUT_DIR true])) as Hmk2.
  { unfold initial in *.
    apply (os_makedirs_again P _ _ _ _ _ ∅ [] f' [] Hmk); cbn [fs];
      apply Hframe'; intros s Hs; symmetry; by apply output_path_facts. }
  assert (ready f') as Hready.
  { split.
    - destruct (Hfiles 16) as (_ & _ & _ & _ & H); [in_sizes|].
      by rewrite Hfs.
    - intros s Hs. destruct (Hfiles s Hs) as (d & _ & _ & H & _).
      by rewrite Hfs, H. }
  assert ((icons P SIZES (mkState ∅ [] f' [EvMakedirs OUTPUT_DIR true])).1
            = Ok tt) as Hok.
  { apply icons_succeed; [done| |done|done].
    intros s Hs. destruct (Hfiles s Hs) as (d & ? & ? & _). by exists d. }
  assert ((run P f').1 = Finished) as Hfin2.
  { rewrite run_fst. destruct (main_effects P f') as (-> & _).
    rewrite program_run, Hmk2 by done. cbv beta iota.
    destruct (icons P SIZES (mkState ∅ [] f' [EvMakedirs OUTPUT_DIR true]))
      as [[[]|e] st3]; [|done].
    by rewrite report_run, Hreport. }
  split; [done|].
  destruct (finished_run P f' Hfin2)
    as (_ & _ & st1' & st2' & Hmk' & Hicons' & _ & ->).
  rewrite Hmk2 in Hmk'. injection Hmk' as <-.
  destruct (icons_ok P SIZES _ _ _ _ st2' (λ s H, H) NoDup_SIZES Hicons')
    as (_ & _ & Hfiles' & Hframe2).
  apply map_eq. intros p.
  destruct (decide (p ∈ output_path <$> SIZES)) as [Hp|Hn].
  - apply list_elem_of_fmap in Hp as (s & -> & Hs).
    destruct (Hfiles s Hs) as (d & Ha & _ & H & _).
    destruct (Hfiles' s Hs) as (d' & Ha' & _ & H' & _).
    rewrite H'. subst f'. rewrite Hfs, H. congruence.
  - apply Hframe2. intros s Hs ->. apply Hn, list_elem_of_fmap. by exists s.
Qed.

Lemma finished_heap P disk i size :
  (run P disk).1 = Finished → SIZES !! i = Some size →
  ∃ drawn, heap (run P disk).2 !! i = Some drawn ∧ artwork P size = Ok drawn.
Proof.
  intros Hfin Hi.
  destruct (finished_run P disk Hfin)
    as (_ & _ & st1 & st2 & Hmk & Hicons & -> & _).
  unfold initial in Hmk.
  destruct (os_makedirs_frame P ∅ [] disk []) as (r & f' & E & _).
  rewrite E in Hmk. injection Hmk as -> <-.
  destruct (icons_ok P SIZES _ _ _ _ st2 (λ s H, H) NoDup_SIZES Hicons)
    as (_ & (ims & -> & Hims) & _).
  destruct (Forall2_lookup_l _ _ _ _ _ Hims Hi) as (drawn & ? & ?).
  by exists drawn.
Qed.

(** C5.  When the run completes, each configured size's picture (the glyph
    drawn on the blank canvas, as it is on the heap) is saved in format PNG
    to [assets/icons/icon<size>.png], and that file holds its PNG encoding,
    whatever was at that path before.  Run again on the disk it left, the
    script completes again and leaves the same disk. *)
Theorem icons_written P disk :
  (run P disk).1 = Finished →
  output_path 16 = "assets/icons/icon16.png" ∧
  output_path 48 = "assets/icons/icon48.png" ∧
  output_path 128 = "assets/icons/icon128.png" ∧
  (∀ i size, SIZES !! i = Some size →
     ∃ drawn,
       heap (run P disk).2 !! i = Some drawn ∧
       artwork P size = Ok drawn ∧
       (∃ l1 l2, log (run P disk).2 =
                   l1 ++ [EvSave i (output_path size) "PNG";
                          EvPrint ("Created " +:+ output_path size)] ++ l2) ∧
       fs (run P disk).2 !! output_path size =
         Some (File (png_encode P drawn))) ∧
  (run P (fs (run P disk).2)).1 = Finished ∧
  fs (run P (fs (run P disk).2)).2 = fs (run P disk).2.
Proof.
  intros Hfin. do 3 (split; [reflexivity|]). split; [|by apply rerun].
  intros i size Hi.
  destruct (finished_heap P disk i size Hfin Hi) as (drawn & Hheap & Ha).
  exists drawn. split; [done|]. split; [done|]. split.
  - by apply console_output_log.
  - assert (size ∈ SIZES) as Hsize by by eapply list_elem_of_lookup_2.
    destruct (finished_artwork P disk size Hfin Hsize)
      as (drawn' & Ha' & _ & Hfile & _).
    rewrite Hfile. congruence.
Qed.

Lemma icons_written_witness :
  output_path 16 = "assets/icons/icon16.png" ∧
  (∃ drawn,
     heap (run macos (<["assets/icons/icon48.png" := File []]> ∅)).2 !! 1%nat
       = Some drawn ∧
     artwork macos 48 = Ok drawn ∧
     fs (run macos (<["assets/icons/icon48.png" := File []]> ∅)).2
       !! output_path 48 = Some (File (png_encode macos drawn))) ∧
  (run macos
     (fs (run macos (<["assets/icons/icon48.png" := File []]> ∅)).2)).1 =
    Finished.
Proof.
  destruct (icons_written macos (<["assets/icons/icon48.png" := File []]> ∅))
    as (H1 & _ & _ & H2 & H3 & _).
  - vm_compute. reflexivity.
  - split; [exact H1|]. split; [|exact H3].
    destruct (H2 1%nat 48 eq_refl) as (drawn & Hh & Ha & _ & Hf).
    exists drawn. exact (conj Hh (conj Ha Hf)).
Defined.

(** ** A run that fails partway *)

Lemma for_in_app x l1 l2 body st :
  for_in x (l1 ++ l2) body st =
    match for_in x l1 body st with
    | (Ok _, st1) => for_in x l2 body st1
    | (Raise e, st1) => (Raise e, st1)
    end.
Proof.
  revert st. induction l1 as [|v l1 IH]; intros st; [done|].
  cbn [app for_in]. unfold bind. cbn [store].
  destruct (body _) as [[[]|e] st1]; [apply IH | done].
Qed.

Lemma startup_ok P disk st :
  startup P (initial disk) = (Ok tt, st) →
  import_error P = None ∧ configured st ∧
  globals st = configuration.
Proof.
  intros Hs.
  assert (import_error P = None) as Hi.
  { revert Hs. unfold startup, bind.
    destruct (imports P (initial disk)) as [[[]|e] st0] eqn:E; [|done].
    intros _. by eapply imports_Ok. }
  rewrite startup_run in Hs by done. injection Hs as _ <-.
  split; [done|]. split; [|reflexivity]. repeat split; reflexivity.
Qed.

Lemma configured_for_in P sizes st :
  configured st → configured (for_in "size" sizes (render_icon P) st).2.
Proof.
  apply configured_preserved. intros x Hx.
  apply preserves_for_in.
  - unfold CONSTANTS in Hx.
    repeat (apply elem_of_cons in Hx as [->|Hx]; [done|]).
    by apply elem_of_nil in Hx.
  - by apply preserves_render_icon, constant_not_loop_variable.
Qed.

Lemma render_all_run P st :
  configured st →
  render_all P st = for_in "size" SIZES (render_icon P) st.
Proof.
  intros (Hs & _). unfold render_all, bind, load. by rewrite Hs.
Qed.

(** One iteration from a configured state, as the reading has it. *)
Lemma iteration_icon P st size :
  configured st →
  effects ((store "size" (VInt size) ;; render_icon P) st) =
    effects (icon P size st).
Proof.
  intros Hc. unfold bind. cbn [store].
  rewrite (render_icon_icon P _ size)
    by (try (by apply configured_store_size);
        cbn [globals set_globals]; by rewrite lookup_insert_eq).
  by apply blind_effects; [apply blind_icon|..].
Qed.

(** C9.  Let the iterations for the sizes [pre] complete and the next one,
    for [size], raise [e].  Then the run ends with [e] in the state that
    iteration left: nothing runs after it, neither the remaining sizes nor a
    second try nor the closing message.  On the disk only the path of the
    failed iteration can differ from before it; the files of the earlier
    sizes are there with the data they had; and the failed iteration printed
    nothing. *)
Theorem no_rollback P disk pre size post st1 e st2 :
  SIZES = pre ++ size :: post →
  (startup P ;; for_in "size" pre (render_icon P)) (initial disk) =
    (Ok tt, st1) →
  (store "size" (VInt size) ;; render_icon P) st1 = (Raise e, st2) →
  main P (initial disk) = (Raise e, st2) ∧
  (∀ p, p ≠ output_path size → fs st2 !! p = fs st1 !! p) ∧
  (∀ s, s ∈ pre →
     ∃ data, fs st1 !! output_path s = Some (File data) ∧
             fs st2 !! output_path s = Some (File data)) ∧
  stdout st2 = stdout st1.
Proof.
  intros HS Hpre Hfail.
  unfold bind at 1 in Hpre.
  destruct (startup P (initial disk)) as [[[]|e0] sta] eqn:Es; [|done].
  destruct (startup_ok P disk sta Es) as (Hi & Hca & _).
  pose proof (configured_for_in P pre sta Hca) as Hc1.
  rewrite Hpre in Hc1. cbn [snd] in Hc1.
  pose proof (iteration_icon P st1 size Hc1) as Hicon.
  rewrite Hfail in Hicon. destruct st1 as [g1 h1 f1 l1].
  destruct (icon P size _) as [r st2'] eqn:Ei.
  apply effects_inv in Hicon as (Hr & _ & Hf & Hl). cbn [fst snd] in *.
  subst r. apply icon_fails in Ei as (_ & Hframe & evs & Hlog & _ & Hsilent).
  assert (∀ p, p ≠ output_path size → fs st2 !! p = f1 !! p) as Hframe2.
  { intros p Hp. rewrite Hf. by apply Hframe. }
  split; [|split; [done|split]].
  - rewrite main_startup. unfold bind at 1. rewrite Es.
    unfold bind at 1. rewrite render_all_run by done.
    rewrite HS, for_in_app, Hpre. cbn [for_in].
    revert Hfail. unfold bind. cbn [store].
    destruct (render_icon P _) as [[[]|e'] st2'']; [done|].
    by intros [= -> ->].
  - intros s Hs.
    pose proof (for_in_icons P pre sta Hca) as Hloop. rewrite Hpre in Hloop.
    destruct sta as [ga ha fa la].
    destruct (icons P pre _) as [r st1'] eqn:Eicons.
    apply effects_inv in Hloop as (Hr & _ & Hf1 & _). cbn [fst snd fs] in *.
    subst r.
    assert (∀ s', s' ∈ pre → s' ∈ SIZES) as Hsub.
    { intros s' Hs'. rewrite HS. apply elem_of_app. by left. }
    assert (NoDup pre ∧ size ∉ pre) as [Hnd Hnotin].
    { pose proof NoDup_SIZES as H. rewrite HS in H.
      apply NoDup_app in H as (H1 & H2 & H3). split; [done|].
      intros Hin. apply (H2 _ Hin). left. }
    destruct (icons_ok P pre ga ha fa la st1' Hsub Hnd Eicons)
      as (_ & _ & Hfiles & _).
    destruct (Hfiles s Hs) as (drawn & _ & _ & Hfile & _).
    exists (png_encode P drawn). rewrite Hf1, <- Hfile. split; [done|].
    rewrite Hframe2, Hf1; [done|].
    apply output_path_distinct; [by apply Hsub| |by intros ->].
    rewrite HS. apply elem_of_app. right. left.
  - unfold stdout. rewrite Hl, Hlog. cbn [log].
    rewrite stdout_of_app, (stdout_of_silent evs) by done.
    by rewrite append_empty_r.
Qed.

Lemma no_rollback_witness :
  main full_disk (initial ∅) = (Raise OSError, at_failure) ∧
  (∃ data, fs after_first !! output_path 16 = Some (File data) ∧
           fs at_failure !! output_path 16 = Some (File data)) ∧
  stdout at_failure = stdout after_first.
Proof.
  assert ((startup full_disk ;; for_in "size" [16] (render_icon full_disk))
            (initial ∅) = (Ok tt, after_first)) as H1
    by (vm_compute; reflexivity).
  assert ((store "size" (VInt 48) ;; render_icon full_disk) after_first =
            (Raise OSError, at_failure)) as H2
    by (vm_compute; reflexivity).
  destruct (no_rollback full_disk ∅ [16] 48 [128] after_first OSError
              at_failure eq_refl H1 H2) as (A & _ & B & C).
  exact (conj A (conj (B 16 (list_elem_of_here 16 [])) C)).
Defined.

(** ** The constants *)

(** C8, as first stated: the glyph character would be one of the constants
    bound at startup.  [text] is not bound when the loop begins: each
    iteration binds it. *)
Lemma glyph_constant_counterexample :
  ¬ (∀ x, x ∈ CONSTANTS ++ ["text"] →
          is_Some (globals (startup macos (initial ∅)).2 !! x)).
Proof.
  intros H. destruct (H "text") as [v Hv].
  - apply elem_of_app. right. left.
  - vm_compute in Hv. discriminate Hv.
Qed.

Lemma measure_text_binds_text P st :
  globals (measure_text P st).2 !! "text" = Some (VStr "R").
Proof.
  unfold measure_text. unfold bind at 1. cbn [store].
  match goal with
  | |- globals (?m ?st1).2 !! _ = _ =>
      assert (preserves "text" m) as Hm by frame; rewrite Hm
  end.
  cbn [globals set_globals]. by rewrite lookup_insert_eq.
Qed.

(** C8 (amended).  With Pillow, the namespace after startup holds the size
    list, the output directory and the two colours, and nothing else; they
    hold these values at the top of every iteration and at the end of the
    run, however it ends, for no iteration assigns to them.  An iteration
    does the same from any two states that agree on the heap, the disk and
    the log: what earlier iterations left in the loop's variables does not
    matter.  The glyph is not among the constants: [text] is unbound after
    startup and every iteration binds it to ["R"]. *)
Theorem constants_fixed P disk :
  import_error P = None →
  globals (startup P (initial disk)).2 = configuration ∧
  (∀ pre,
     configured ((startup P ;; for_in "size" pre (render_icon P))
                   (initial disk)).2) ∧
  configured (main P (initial disk)).2 ∧
  (∀ x st, x ∈ CONSTANTS →
           globals (render_icon P st).2 !! x = globals st !! x) ∧
  (∀ st1 st2 size,
     configured st1 → configured st2 →
     heap st1 = heap st2 → fs st1 = fs st2 → log st1 = log st2 →
     effects ((store "size" (VInt size) ;; render_icon P) st1) =
       effects ((store "size" (VInt size) ;; render_icon P) st2)) ∧
  globals (startup P (initial disk)).2 !! "text" = None ∧
  (∀ st, globals (measure_text P st).2 !! "text" = Some (VStr "R")).
Proof.
  intros Hi.
  assert (globals (startup P (initial disk)).2 = configuration) as Hg
    by by rewrite startup_run.
  assert (configured (startup P (initial disk)).2) as Hc.
  { unfold configured. rewrite Hg. repeat split; reflexivity. }
  split; [done|]. split; [|split; [|split; [|split; [|split]]]].
  - intros pre. unfold bind.
    destruct (startup P (initial disk)) as [[[]|e] sta]; [|done].
    by apply configured_for_in.
  - rewrite main_startup. unfold bind at 1.
    destruct (startup P (initial disk)) as [[[]|e] sta]; [|done].
    apply configured_preserved; [|done]. intros x Hx.
    assert (x ∉ LOOP_VARIABLES) as Hx'
      by by apply constant_not_loop_variable.
    apply preserves_bind; [by apply preserves_render_all|]. intros _.
    apply preserves_blind. unfold report.
    apply blind_bind; [apply blind_print | intros; apply blind_print].
  - intros x st Hx.
    by apply preserves_render_icon, constant_not_loop_variable.
  - intros st1 st2 size Hc1 Hc2 Hh Hf Hl.
    rewrite !iteration_icon by done.
    by apply blind_effects; [apply blind_icon|..].
  - by rewrite Hg.
  - apply measure_text_binds_text.
Qed.

Lemma constants_fixed_witness :
  globals (startup macos (initial ∅)).2 = configuration ∧
  configured ((startup macos ;; for_in "size" [16; 48] (render_icon macos))
                (initial ∅)).2 ∧
  configured (main macos (initial ∅)).2 ∧
  effects ((store "size" (VInt 48) ;; render_icon macos) (easel 16)) =
    effects ((store "size" (VInt 48) ;; render_icon macos) (easel 128)) ∧
  globals (startup macos (initial ∅)).2 !! "text" = None.
Proof.
  destruct (constants_fixed macos ∅ eq_refl)
    as (H1 & H2 & H3 & _ & H4 & H5 & _).
  exact (conj H1 (conj (H2 [16; 48]) (conj H3
    (conj (H4 (easel 16) (easel 128) 48 (configured_easel 16)
             (configured_easel 128) eq_refl eq_refl eq_refl) H5)))).
Defined.

(** * More of the script's behaviour *)

(** ** What an iteration can do to the disk *)

(** Opens an iteration into its outcomes. *)
Ltac outcomes P size :=
  rewrite icon_run; cbv zeta;
  destruct (size <? 0) eqn:?;
  [| destruct (measure P (0, 0) "R" (picked_font P size)) as [?box|?e] eqn:?;
     [ destruct (render P _ (centered size _) "R" TEXT_COLOR _)
         as [?drawn|?e] eqn:?;
       [ cbv beta iota delta [bind];
         erewrite Image_save_run by apply lookup_snoc; cbv zeta;
         destruct (is_dir (_ !! output_path size)) eqn:?;
         [| destruct (parent_error _ (output_path size)) as [?e|] eqn:?;
            [| destruct (write_error P (output_path size))
                 as [[?e ?d]|] eqn:?;
               [| unfold print;
                  destruct (print_error P ("Created " +:+ output_path size))
                    as [?e|] eqn:?;
                  cbv beta iota delta [bind tell raise emit];
                  cbn [globals heap fs log] ] ] ]
       | ]
     | ] ].

Lemma icon_disk P g h f l size p :
  (p ≠ output_path size →
   fs (icon P size (mkState g h f l)).2 !! p = f !! p) ∧
  is_dir (fs (icon P size (mkState g h f l)).2 !! p) = is_dir (f !! p).
Proof.
  outcomes P size; cbn [snd fs]; try done.
  - destruct d; cbn [litter]; (split; [intros Hp|]).
    all: rewrite ?lookup_insert_ne, ?lookup_delete_ne by done; try done.
    all: destruct (decide (p = output_path size)) as [->|Hp];
      [ rewrite ?lookup_insert_eq, ?lookup_delete_eq
      | by rewrite ?lookup_insert_ne, ?lookup_delete_ne by done ].
    all: by match goal with H : is_dir _ = false |- _ => rewrite H end.
  - split; [intros Hp; by rewrite lookup_insert_ne by done|].
    destruct (decide (p = output_path size)) as [->|Hp];
      [rewrite lookup_insert_eq | by rewrite lookup_insert_ne by done].
    by match goal with H : is_dir _ = false |- _ => rewrite H end.
  - split; [intros Hp; by rewrite lookup_insert_ne by done|].
    destruct (decide (p = output_path size)) as [->|Hp];
      [rewrite lookup_insert_eq | by rewrite lookup_insert_ne by done].
    by match goal with H : is_dir _ = false |- _ => rewrite H end.
Qed.

Lemma icons_disk P sizes g h f l p :
  ((∀ s, s ∈ sizes → p ≠ output_path s) →
   fs (icons P sizes (mkState g h f l)).2 !! p = f !! p) ∧
  is_dir (fs (icons P sizes (mkState g h f l)).2 !! p) = is_dir (f !! p).
Proof.
  revert g h f l. induction sizes as [|size sizes IH]; intros g h f l;
    [done|].
  rewrite icons_cons.
  destruct (icon_disk P g h f l size p) as [Hframe Hdir].
  destruct (icon P size (mkState g h f l)) as [[[]|e] [g1 h1 f1 l1]];
    cbn [fst snd fs] in *.
  - destruct (IH g1 h1 f1 l1) as [Hframe' Hdir']. split.
    + intros Hp. rewrite Hframe'; [apply Hframe, Hp; left|].
      intros s Hs. apply Hp. by right.
    + by rewrite Hdir'.
  - split; [|done]. intros Hp. apply Hframe, Hp. left.
Qed.

(** ** What [os.makedirs] can do to the disk *)

Ltac dirs_open :=
  unfold os_makedirs; rewrite ?ancestors_OUTPUT_DIR; cbn [makedirs];
  unfold os_mkdir, path_exists, path_isdir, check_parent, parent_error;
  rewrite ?parent_assets, ?parent_OUTPUT_DIR.

Ltac dirs_ask P :=
  match goal with
  | |- context [mkdir_error P ?p] =>
      destruct (mkdir_error P p) as [?e|] eqn:?
  | |- context [isinstance_FileExistsError ?e] =>
      destruct (isinstance_FileExistsError e) eqn:?
  | |- context [isinstance_OSError ?e] =>
      destruct (isinstance_OSError e) eqn:?
  end.

Ltac dirs_step :=
  cbv beta iota zeta delta
    [bind ret raise tell emit set_fs set_globals globals heap fs log
     try_except present is_dir negb orb fst snd].

Ltac dirs_run := repeat (progress (dirs_step; look; known)).

(** An entry is as it was, or is a directory that was not there. *)
Lemma os_makedirs_disk P g h f l p :
  fs (os_makedirs P OUTPUT_DIR true (mkState g h f l)).2 !! p = f !! p ∨
  (p = "assets" ∨ p = OUTPUT_DIR) ∧ f !! p = None ∧
  fs (os_makedirs P OUTPUT_DIR true (mkState g h f l)).2 !! p = Some Dir.
Proof.
  dirs_open.
  destruct (f !! "assets") as [[|d1]|] eqn:Ha;
    destruct (f !! OUTPUT_DIR) as [[|d2]|] eqn:Hb;
    dirs_run; repeat (dirs_ask P; dirs_run); try (by left).
  all: destruct (decide (p = OUTPUT_DIR)) as [->|?];
    [| destruct (decide (p = "assets")) as [->|?]];
    repeat first [rewrite lookup_insert_eq | rewrite lookup_insert_ne by done];
    first [by left | right; (split; [by (left + right)|]); by split].
Qed.



(** ** What a run can do to the disk *)

Lemma program_without_import P st e :
  import_error P = Some e →
  program P st =
    if isinstance_ImportError e
    then (match print_error P HINT with
          | None => Raise (SystemExit 1)
          | Some e' => Raise e'
          end,
          emit (printed P HINT) st)
    else (Raise e, st).
Proof.
  intros Hi. unfold program, bind. rewrite imports_run, Hi.
  destruct (isinstance_ImportError e); [|done].
  unfold HINT. by destruct (print_error P _).
Qed.

Lemma elem_of_FOOTPRINT p :
  p ∈ FOOTPRINT ↔
  p = "assets" ∨ p = OUTPUT_DIR ∨ ∃ s, s ∈ SIZES ∧ p = output_path s.
Proof.
  unfold FOOTPRINT. rewrite elem_of_app, !elem_of_cons, elem_of_nil,
    list_elem_of_fmap.
  split.
  - intros [[?|[?|[]]]|(s & ? & ?)]; eauto.
  - intros [?|[?|(s & ? & ?)]]; eauto.
Qed.

Lemma run_disk P disk p :
  ((∀ s, s ∈ SIZES → p ≠ output_path s) →
   fs (run P disk).2 !! p = disk !! p ∨
   (p = "assets" ∨ p = OUTPUT_DIR) ∧ disk !! p = None ∧
   fs (run P disk).2 !! p = Some Dir) ∧
  (p ≠ "assets" → p ≠ OUTPUT_DIR →
   is_dir (fs (run P disk).2 !! p) = is_dir (disk !! p)).
Proof.
  rewrite run_snd. destruct (main_effects P disk) as (_ & _ & -> & _).
  destruct (import_error P) as [e|] eqn:Hi.
  { rewrite (program_without_import P _ e Hi).
    destruct (isinstance_ImportError e); cbn [snd fs emit initial];
      by (split; [left|]). }
  rewrite program_run by done. unfold initial.
  pose proof (os_makedirs_disk P ∅ [] disk [] p) as Hmk.
  destruct (os_makedirs_frame P ∅ [] disk []) as (r & f' & E & _).
  rewrite E in Hmk |- *. cbn [snd fs] in Hmk.
  destruct (icons_disk P SIZES ∅ [] f' ([] ++ [EvMakedirs OUTPUT_DIR true]) p)
    as [Hframe Hdir].
  assert (p ≠ "assets" → p ≠ OUTPUT_DIR → f' !! p = disk !! p) as Hsame.
  { intros Ha Hb. destruct Hmk as [?|([?|?] & _)]; done. }
  destruct r as [[]|e]; cbv beta iota;
    [destruct (icons P SIZES _) as [[[]|e] st2]; [rewrite report_run|]|];
    cbn [snd fs] in *.
  all: split; [intros Hp; rewrite ?Hframe by done; exact Hmk|].
  all: intros Ha Hb; by rewrite ?Hdir, Hsame.
Qed.

(** X1.  Whatever the platform does and however the run ends: an entry of
    the disk that is not [assets], [assets/icons] or the path of one of the
    three icons is after the run what it was before; [assets] and
    [assets/icons] are what they were or, having been absent, are new
    directories; and a directory, wherever it is, is still a directory.
    The script removes nothing and replaces no directory. *)
Theorem footprint P disk p :
  (p ∉ FOOTPRINT → fs (run P disk).2 !! p = disk !! p) ∧
  (p = "assets" ∨ p = OUTPUT_DIR →
   fs (run P disk).2 !! p = disk !! p ∨
   disk !! p = None ∧ fs (run P disk).2 !! p = Some Dir) ∧
  (disk !! p = Some Dir → fs (run P disk).2 !! p = Some Dir).
Proof.
  destruct (run_disk P disk p) as [Hout Hdir].
  assert (p = "assets" ∨ p = OUTPUT_DIR →
          ∀ s, s ∈ SIZES → p ≠ output_path s) as Hdirs.
  { intros Hp s Hs. destruct (output_path_facts s Hs) as (_ & _ & ? & ?).
    by destruct Hp as [->| ->]. }
  split; [|split].
  - rewrite elem_of_FOOTPRINT. intros Hp. destruct Hout as [?|(Hq & _)].
    + intros s Hs ->. apply Hp. right. right. by exists s.
    + done.
    + exfalso. apply Hp. tauto.
  - intros Hp. destruct (Hout (Hdirs Hp)) as [?|(_ & ? & ?)]; [by left|].
    by right.
  - intros Hd.
    destruct (decide (p = "assets")) as [Ha|Ha];
      [|destruct (decide (p = OUTPUT_DIR)) as [Hb|Hb]].
    + destruct (Hout (Hdirs (or_introl Ha))) as [->|(_ & ? & ?)];
        congruence.
    + destruct (Hout (Hdirs (or_intror Hb))) as [->|(_ & ? & ?)];
        congruence.
    + specialize (Hdir Ha Hb). rewrite Hd in Hdir.
      by destruct (fs (run P disk).2 !! p) as [[]|].
Qed.

Lemma footprint_witness :
  fs (run full_disk (<["manifest.json" := File [Byte.x7b]]> ∅)).2
    !! "manifest.json" = Some (File [Byte.x7b]) ∧
  (fs (run full_disk (<["assets" := Dir]> ∅)).2 !! OUTPUT_DIR =
     (<["assets" := Dir]> ∅ : gmap string node) !! OUTPUT_DIR ∨
   (<["assets" := Dir]> ∅ : gmap string node) !! OUTPUT_DIR = None ∧
   fs (run full_disk (<["assets" := Dir]> ∅)).2 !! OUTPUT_DIR = Some Dir) ∧
  fs (run macos directory_in_the_way).2 !! "assets/icons/icon48.png" =
    Some Dir.
Proof.
  split; [|split].
  - rewrite (proj1 (footprint full_disk _ "manifest.json")); [reflexivity|].
    apply (bool_decide_unpack _). vm_compute. exact I.
  - apply (proj1 (proj2 (footprint full_disk _ OUTPUT_DIR))). by right.
  - apply (proj2 (proj2 (footprint macos directory_in_the_way
                           "assets/icons/icon48.png"))).
    reflexivity.
Defined.

(** ** The import guard and the output directory, when they fail *)







(** ** Why a run fails *)

Lemma os_makedirs_raises P g h f l e :
  (os_makedirs P OUTPUT_DIR true (mkState g h f l)).1 = Raise e →
  e ∈ [FileExistsError; NotADirectoryError; FileNotFoundError] ∨
  ∃ path, mkdir_error P path = Some e.
Proof.
  dirs_open.
  destruct (f !! "assets") as [[|d1]|] eqn:Ha;
    destruct (f !! OUTPUT_DIR) as [[|d2]|] eqn:Hb;
    dirs_run; repeat (dirs_ask P; dirs_run); try done;
    intros [= <-]; first [by right; eexists | left; rewrite !elem_of_cons; tauto].
Qed.

Lemma icon_raises P g h f l size e st' :
  (size <? 0) = false →
  parent_error f (output_path size) = None →
  icon P size (mkState g h f l) = (Raise e, st') →
  measure P (0, 0) "R" (picked_font P size) = Raise e ∨
  (∃ box,
     measure P (0, 0) "R" (picked_font P size) = Ok box ∧
     render P (blank_image "RGB" size size BG_COLOR) (centered size box)
       "R" TEXT_COLOR (picked_font P size) = Raise e) ∨
  (is_dir (f !! output_path size) = true ∧ e = IsADirectoryError) ∨
  (∃ d, write_error P (output_path size) = Some (e, d)) ∨
  print_error P (confirmation size) = Some e.
Proof.
  intros Hpos Hpar. unfold confirmation.
  outcomes P size; intros [= <- <-]; try congruence.
  - right. right. by left.
  - right. right. right. left. by eexists.
  - right. right. right. by right.
  - right. left. by eexists.
  - by left.
Qed.

Lemma icons_raise P sizes g h f l e st' :
  (∀ s, s ∈ sizes → s ∈ SIZES) →
  f !! OUTPUT_DIR = Some Dir →
  icons P sizes (mkState g h f l) = (Raise e, st') →
  ∃ size,
    size ∈ sizes ∧
    (measure P (0, 0) "R" (picked_font P size) = Raise e ∨
     (∃ box,
        measure P (0, 0) "R" (picked_font P size) = Ok box ∧
        render P (blank_image "RGB" size size BG_COLOR) (centered size box)
          "R" TEXT_COLOR (picked_font P size) = Raise e) ∨
     (is_dir (f !! output_path size) = true ∧ e = IsADirectoryError) ∨
     (∃ d, write_error P (output_path size) = Some (e, d)) ∨
     print_error P (confirmation size) = Some e).
Proof.
  revert g h f l. induction sizes as [|size sizes IH];
    intros g h f l Hin Hdir; [done|].
  assert (size ∈ SIZES) as Hsize by (apply Hin; left).
  destruct (output_path_facts size Hsize) as (Hpos & Hparent & Hne & _).
  rewrite icons_cons.
  destruct (icon P size (mkState g h f l)) as [[[]|e'] st1] eqn:E.
  - intros Hrest. destruct st1 as [g1 h1 f1 l1].
    assert (∀ p, (p ≠ output_path size → f1 !! p = f !! p) ∧
                 is_dir (f1 !! p) = is_dir (f !! p)) as Hdisk.
    { intros p. pose proof (icon_disk P g h f l size p) as H.
      by rewrite E in H. }
    apply IH in Hrest as (s & Hs & Hwhy).
    + exists s. split; [by right|].
      by rewrite (proj2 (Hdisk (output_path s))) in Hwhy.
    + intros s Hs. apply Hin. by right.
    + rewrite (proj1 (Hdisk OUTPUT_DIR)); [done|]. congruence.
  - intros [= <- <-]. exists size. split; [left|].
    apply (icon_raises P g h f l size e' st1); [done| |done].
    unfold parent_error. by rewrite Hparent, Hdir.
Qed.

Lemma is_dir_true n : is_dir n = true ↔ n = Some Dir.
Proof. by destruct n as [[]|]. Qed.

Lemma report_result_Raise P e :
  report_result P = Raise e →
  ∃ line, line ∈ CLOSING ∧ print_error P line = Some e.
Proof.
  unfold report_result, CLOSING.
  destruct (print_error P (newline +:+ _)) as [e1|] eqn:E1.
  { intros [= ->]. eexists. split; [|exact E1]. left. }
  destruct (print_error P "You can now load the extension in Chrome.")
    as [e2|] eqn:E2; [|done].
  intros [= ->]. eexists. split; [|exact E2]. right. left.
Qed.

Lemma main_failure P disk e :
  (main P (initial disk)).1 = Raise e → failure P disk e.
Proof.
  destruct (main_effects P disk) as (-> & _).
  destruct (import_error P) as [e'|] eqn:Hi.
  { rewrite (program_without_import P _ e' Hi).
    destruct (isinstance_ImportError e') eqn:He.
    - destruct (print_error P HINT) as [e1|] eqn:Hp; intros [= <-].
      + by eapply hint_refused.
      + by eapply pillow_missing.
    - intros [= <-]. by apply import_failed. }
  rewrite program_run by done. unfold initial.
  pose proof (os_makedirs_raises P ∅ [] disk [] e) as Hwhy.
  pose proof (os_makedirs_disk P ∅ [] disk []) as Hdisk.
  destruct (os_makedirs_frame P ∅ [] disk []) as (r & f' & E & _ & _ & Hdir).
  rewrite E in Hwhy, Hdisk |- *. cbn [fst snd fs] in *.
  destruct r as [[]|e0].
  - pose proof (icons_raise P SIZES ∅ [] f' ([] ++ [EvMakedirs OUTPUT_DIR true])
                  e) as Hloop.
    destruct (icons P SIZES _) as [[[]|e1] st2].
    { rewrite report_run. cbn [fst].
      intros (line & Hline & Hp)%report_result_Raise.
      by eapply closing_refused. }
    intros [= ->].
    destruct (Hloop st2 (λ s H, H) (Hdir eq_refl) eq_refl)
      as (size & Hsize & [Hm|[(box & Hm & Hr)|[[Hd ->]|[[d Hw]|Hp]]]]).
    + by eapply measure_failed.
    + by eapply render_failed.
    + apply (path_is_directory P disk _ size); [done| |done].
      apply is_dir_true. rewrite <- Hd.
      destruct (output_path_facts size Hsize) as (_ & _ & Hne1 & Hne2).
      destruct (Hdisk (output_path size)) as [->|([?|?] & _)]; done.
    + by eapply write_failed.
    + by eapply confirmation_refused.
  - intros [= ->]. unfold initial in *.
    destruct (Hwhy eq_refl) as [Hin|[path Hpath]].
    + apply no_directory; [unfold initial; by rewrite E | done].
    + apply (mkdir_refused P disk e path);
        [unfold initial; by rewrite E | done].
Qed.

Lemma termination_Traceback r e : termination_of r = Traceback e → r = Raise e.
Proof. destruct r as [[]|[]]; intros [= <-]; done. Qed.

Lemma termination_Exited r code :
  termination_of r = Exited code → r = Raise (SystemExit code).
Proof. destruct r as [[]|[]]; intros [= <-]; done. Qed.

(** X4.  A run that does not complete ends with an exception of one of
    these origins ([failure]): the import ([exit(1)] after an
    [ImportError] whose hint was printed, the exception itself otherwise);
    [os.makedirs], for an entry in the way or a refusal of the system; the
    measurement of the glyph for one of the sizes; its drawing; a directory
    at an icon's path when the run began; the system failing the write of
    an icon; or standard output refusing one of the lines the script
    prints: the install hint, the confirmation of a size or a closing
    line. *)
Theorem failure_sources P disk :
  (∀ e, (run P disk).1 = Traceback e → failure P disk e) ∧
  (∀ code, (run P disk).1 = Exited code → failure P disk (SystemExit code)).
Proof.
  rewrite run_fst. split.
  - intros e He%termination_Traceback. by apply main_failure.
  - intros code He%termination_Exited. by apply main_failure.
Qed.

Lemma failure_sources_witness :
  failure full_disk ∅ OSError ∧ failure bare ∅ (SystemExit 1) ∧
  failure output_refused ∅ OSError.
Proof.
  split; [|split].
  - apply (proj1 (failure_sources full_disk ∅) OSError).
    vm_compute. reflexivity.
  - apply (proj2 (failure_sources bare ∅) 1).
    vm_compute. reflexivity.
  - apply (proj1 (failure_sources output_refused ∅) OSError).
    vm_compute. reflexivity.
Defined.

(** ** When a run completes *)

Lemma icons_not_dir P sizes g h f l st' :
  icons P sizes (mkState g h f l) = (Ok tt, st') →
  ∀ s, s ∈ sizes → is_dir (f !! output_path s) = false.
Proof.
  revert g h f l. induction sizes as [|size sizes IH]; intros g h f l.
  { intros _ s Hs. by apply elem_of_nil in Hs. }
  rewrite icons_cons.
  destruct (icon P size (mkState g h f l)) as [[[]|e] st1] eqn:E; [|done].
  intros Hrest s Hs.
  pose proof (icon_disk P g h f l size (output_path s)) as [_ Hdir].
  rewrite E in Hdir. cbn [snd] in Hdir.
  apply icon_ok in E as (_ & drawn & _ & Hd & _ & _ & ->).
  apply elem_of_cons in Hs as [->|Hs]; [done|].
  rewrite <- Hdir. by eapply IH.
Qed.

(** X5.  The run completes exactly when Pillow imports and every
    operation after that succeeds ([all_succeed]): [os.makedirs] returns;
    for each of the three sizes the glyph is measured and drawn without an
    exception, no directory is at the icon's path, the system accepts the
    write of the icon and standard output its confirmation; and standard
    output accepts the two closing lines. *)
Theorem success_criterion P disk :
  (run P disk).1 = Finished ↔ import_error P = None ∧ all_succeed P disk.
Proof.
  split; [|by intros [Hi Hall]; apply run_all_succeed].
  intros Hfin.
  destruct (finished_run P disk Hfin)
    as (Hi & _ & st1 & st2 & Hmk & Hicons & _).
  destruct (finished_printed P disk Hfin) as [Hpr Hreport].
  apply report_result_Ok in Hreport as (Hp1 & Hp2 & _).
  split; [done|]. split; [by rewrite Hmk|]. split.
  - intros size Hsize.
    destruct (finished_artwork P disk size Hfin Hsize)
      as (drawn & Ha & Hw & _).
    split; [by exists drawn|]. split; [|split; [done|by apply Hpr]].
    assert (fs st1 !! output_path size = disk !! output_path size) as <-.
    { destruct (os_makedirs_frame P ∅ [] disk []) as (r & f' & E & Hfr & _).
      unfold initial in Hmk. rewrite E in Hmk. injection Hmk as -> <-.
      destruct (output_path_facts size Hsize) as (_ & _ & ? & ?).
      by apply Hfr. }
    destruct st1 as [g1 h1 f1 l1]. cbn [fs]. rewrite <- is_dir_true.
    by rewrite (icons_not_dir P SIZES g1 h1 f1 l1 st2 Hicons size Hsize).
  - unfold CLOSING. intros line Hline.
    repeat (apply elem_of_cons in Hline as [->|Hline]; [done|]).
    by apply elem_of_nil in Hline.
Qed.

Lemma success_criterion_witness :
  (run macos ∅).1 = Finished ∧ (run full_disk ∅).1 ≠ Finished ∧
  (run output_refused ∅).1 ≠ Finished.
Proof.
  split; [|split].
  - apply (proj2 (success_criterion macos ∅)).
    split; [reflexivity|]. split; [reflexivity|]. split; [|done].
    intros size [->|[->| ->]]%SIZES_cases;
      (split; [by eexists|]); by repeat split.
  - intros H. apply (proj1 (success_criterion full_disk ∅)) in H.
    destruct H as (_ & _ & H & _).
    destruct (H 48 ltac:(in_sizes)) as (_ & _ & Hw & _). discriminate Hw.
  - intros H. apply (proj1 (success_criterion output_refused ∅)) in H.
    destruct H as (_ & _ & H & _).
    destruct (H 48 ltac:(in_sizes)) as (_ & _ & _ & Hp). discriminate Hp.
Defined.

(** ** What a run leaves for the next one *)

(** X6.  What a run leaves on the disk is never in the way of a later run,
    however the first one ended and on whatever platform it ran: if a
    platform where nothing but the font can fail would complete on the disk
    before, it completes on the disk after. *)
Theorem leftovers_harmless P P' disk :
  cooperative P' disk →
  cooperative P' (fs (run P disk).2) ∧
  (run P' (fs (run P disk).2)).1 = Finished.
Proof.
  intros (Hi & Hm & Hr & Hmk & Hw & Hpr & Ha & Hb & Hfiles).
  assert (cooperative P' (fs (run P disk).2)) as Hc.
  { repeat (split; [done|]).
    assert (∀ p, p = "assets" ∨ p = OUTPUT_DIR →
                 (∀ data, disk !! p ≠ Some (File data)) →
                 ∀ data, fs (run P disk).2 !! p ≠ Some (File data)) as Hdirs.
    { intros p Hp Hfree data.
      destruct (run_disk P disk p) as [Hout _].
      destruct Hout as [->|(_ & _ & ->)]; [|done|done].
      intros s Hs. destruct (output_path_facts s Hs) as (_ & _ & ? & ?).
      by destruct Hp as [->| ->]. }
    split; [apply Hdirs; [by left|done]|].
    split; [apply Hdirs; [by right|done]|].
    intros size Hsize.
    destruct (output_path_facts size Hsize) as (_ & _ & Hne1 & Hne2).
    destruct (run_disk P disk (output_path size)) as [_ Hdir].
    specialize (Hdir Hne2 Hne1). rewrite <- is_dir_true, Hdir, is_dir_true.
    by apply Hfiles. }
  split; [done|]. by apply run_succeeds.
Qed.

Lemma leftovers_harmless_witness :
  cooperative macos (fs (run full_disk ∅).2) ∧
  (run macos (fs (run full_disk ∅).2)).1 = Finished.
Proof.
  apply (leftovers_harmless full_disk macos ∅). exact macos_cooperative.
Defined.

(** ** The exit status *)





(** ** What is printed, and what is on the disk *)









(** ** The order of the calls *)

(** X9.  With Pillow, the calls a run makes of [os], of Pillow and of
    [print] are a beginning of one sequence, [full_log]: [os.makedirs];
    then for 16, 48 and 128 in turn [Image.new], [ImageDraw.Draw],
    [ImageFont.truetype] (and [ImageFont.load_default] when it raised),
    [draw.textbbox], [draw.text], [img.save], [print]; then the two closing
    [print]s.  The run completes exactly when it made all of them and the
    last one, the second closing [print], was taken by standard output. *)
Theorem call_sequence P disk :
  import_error P = None →
  log (run P disk).2 `prefix_of` full_log P ∧
  ((run P disk).1 = Finished ↔
   log (run P disk).2 = full_log P ∧
   print_error P "You can now load the extension in Chrome." = None).
Proof.
  intros Hi. split.
  - rewrite run_snd. destruct (main_effects P disk) as (_ & _ & _ & ->).
    by apply program_log.
  - split.
    { intros Hfin. split; [by apply finished_run|].
      destruct (finished_printed P disk Hfin) as [_ Hreport].
      by apply report_result_Ok in Hreport as (_ & ? & _). }
    rewrite run_fst, run_snd.
    destruct (main_effects P disk) as (-> & _ & _ & ->).
    rewrite program_run by done. unfold initial, full_log.
    destruct (os_makedirs_frame P ∅ [] disk []) as (r & f' & -> & _).
    destruct r as [[]|e]; cbn [fst snd log]; [|by intros [? _]].
    destruct (icons_log_prefix P SIZES ∅ [] f'
                ([] ++ [EvMakedirs OUTPUT_DIR true]))
      as (evs & Hlog & Hpre & Hok).
    destruct (icons P SIZES _) as [[[]|e] st2]; cbn [fst snd] in *.
    + rewrite report_run. cbn [fst snd log]. rewrite Hlog, Hok by done.
      rewrite <- app_assoc. intros [Hsaid Hp2].
      apply app_inv_head, app_inv_head in Hsaid.
      revert Hsaid. unfold report_result, report_said, report_log.
      destruct (print_error P (newline +:+ _)); [done|]. by rewrite Hp2.
    + rewrite Hlog. intros [Hevs _]. exfalso.
      apply app_inv_head in Hevs.
      apply prefix_length in Hpre. rewrite Hevs, length_app in Hpre.
      cbn [length report_log] in Hpre. lia.
Qed.

Lemma call_sequence_witness :
  log (run full_disk ∅).2 `prefix_of` full_log full_disk ∧
  log (run output_refused ∅).2 `prefix_of` full_log output_refused ∧
  log (run macos ∅).2 = full_log macos.
Proof.
  split; [|split].
  - apply (proj1 (call_sequence full_disk ∅ eq_refl)).
  - apply (proj1 (call_sequence output_refused ∅ eq_refl)).
  - apply (proj1 (proj2 (call_sequence macos ∅ eq_refl))).
    vm_compute. reflexivity.
Defined.

(** ** Where the glyph lands *)

(** X10.  Every [draw.text] call of a run is for one of the sizes and puts
    the glyph at [(px, py)] such that, with [(x0, y0, x1, y1)] the box
    measured for its font: the box's top edge [py + y0] is as far from the
    top of the canvas as its bottom edge [py + y1] is from the bottom, or
    one pixel nearer; a box of the glyph's width starting at [px] is
    centred in the same way; but [x0] is not subtracted, so the left margin
    of the measured box, [px + x0], exceeds the right one by [2 * x0] (less
    one when the size minus the width is odd). *)
Theorem glyph_margins P disk obj canvas px py text fill font :
  EvDrawText obj canvas (px, py) text fill font ∈ log (run P disk).2 →
  ∃ size x0 y0 x1 y1,
    SIZES !! obj = Some size ∧
    measure P (0, 0) "R" font = Ok (x0, y0, x1, y1) ∧
    py + y0 ≤ size - (py + y1) ≤ py + y0 + 1 ∧
    px ≤ size - (px + (x1 - x0)) ≤ px + 1 ∧
    (px + x0) - (size - (px + x1)) = 2 * x0 - (size - (x1 - x0)) `mod` 2.
Proof.
  intros Hin.
  destruct (run_log P disk) as [Hpre|Hprints];
    [|by destruct (not_printed_draw _ _ _ _ _ _ _ _ (Hprints _ Hin))].
  apply (elem_of_prefix _ _ _ Hin) in Hpre. unfold full_log in Hpre.
  rewrite !elem_of_app in Hpre. destruct Hpre as [Hpre|[Hpre|Hpre]].
  - by apply list_elem_of_singleton in Hpre.
  - apply elem_of_icons_log_draw
      in Hpre as (i & size & [[[x0 y0] x1] y1] & Hi & -> & Hm & _ & Hxy
                  & _ & _ & ->).
    exists size, x0, y0, x1, y1. split; [done|]. split; [done|].
    injection Hxy as -> ->.
    pose proof (Z.div_mod (size - (x1 - x0)) 2 ltac:(lia)).
    pose proof (Z.mod_pos_bound (size - (x1 - x0)) 2 ltac:(lia)).
    pose proof (Z.div_mod (size - (y1 - y0)) 2 ltac:(lia)).
    pose proof (Z.mod_pos_bound (size - (y1 - y0)) 2 ltac:(lia)).
    lia.
  - apply elem_of_report_log in Hpre as [line Hpre].
    by destruct (not_printed_draw _ _ _ _ _ _ _ _ Hpre).
Qed.

Lemma glyph_margins_witness :
  ∃ size x0 y0 x1 y1,
    SIZES !! 0%nat = Some size ∧
    measure macos (0, 0) "R" (FreeTypeFont helvetica 9) =
      Ok (x0, y0, x1, y1) ∧
    2 + y0 ≤ size - (2 + y1) ≤ 2 + y0 + 1 ∧
    5 ≤ size - (5 + (x1 - x0)) ≤ 5 + 1 ∧
    (5 + x0) - (size - (5 + x1)) = 2 * x0 - (size - (x1 - x0)) `mod` 2.
Proof.
  apply (glyph_margins macos ∅ 0 (blank_image "RGB" 16 16 BG_COLOR) 5 2 "R"
           TEXT_COLOR (FreeTypeFont helvetica 9)).
  apply list_elem_of_In. vm_compute.
  repeat (first [left; reflexivity | right]).
Defined.

(** ** The names of the files *)

Lemma length_append (a b : string) :
  String.length (a +:+ b) = (String.length a + String.length b)%nat.
Proof.
  induction a as [|x a IH]; [done|]. rewrite append_cons. simpl.
  by rewrite IH.
Qed.

Lemma append_inj_r (a b c : string) : a +:+ c = b +:+ c → a = b.
Proof.
  revert b. induction a as [|x a IH]; intros [|y b] H; [done| | |].
  - apply (f_equal String.length) in H. rewrite !length_append in H.
    simpl in H. lia.
  - apply (f_equal String.length) in H. rewrite !length_append in H.
    simpl in H. lia.
  - rewrite !append_cons in H. injection H as -> H. f_equal. by apply IH.
Qed.

(** X11.  Icons of different sizes go to different files: the path
    [assets/icons/icon<size>.png] determines the size, for every integer
    and not only for the three configured ones. *)
Theorem output_path_injective size1 size2 :
  size1 ≠ size2 → output_path size1 ≠ output_path size2.
Proof.
  intros Hne H. apply Hne. unfold output_path, str in H.
  apply (inj (String.app OUTPUT_DIR)) in H.
  apply (inj (String.app "/icon")) in H.
  apply append_inj_r in H. by apply (inj pretty) in H.
Qed.

Lemma output_path_injective_witness :
  output_path 16 ≠ output_path (-16) ∧ output_path 1 ≠ output_path 10.
Proof.
  split.
  - apply (output_path_injective 16 (-16)). lia.
  - apply (output_path_injective 1 10). lia.
Defined.

(** ** What a run reads of the disk *)








